(** * The Risk Map dashboard: the data pipeline of [update_visuals]

    A shallow embedding of the callback [update_visuals] of [app.py] and of
    the pandas operations it is written with, followed by the properties of
    the pipeline: region filter, casualty binner, the group-by aggregates
    and the top-country insight.

    Conventions of the embedding.
    - A row of the incident table is the record [Incident]; a column the
      loader may leave empty is an [option] ([None] is pandas' NaN).
    - A cell of a column of counts is an integer ([Z]); the columns are
      numpy int64, so [max_cas + 1] and the sums of pandas are written with
      their wrap-around, and a theorem that needs a result within the int64
      range says so in a hypothesis.
    - The figures are built by plotly from the frames the callback
      computes; plotly is not part of the embedding.  The callback of the
      embedding returns those frames and the narration, so it returns
      whenever the callback of the source does, with the frames the source
      hands to plotly.
    - A DataFrame is an object: it lives in a heap at a location, [copy]
      and boolean-mask selection allocate a new object and column
      assignment writes to an existing one.  The callback is a program in a
      state-and-exception monad over that heap.
    - Two behaviours are decided by the installed pandas and not by
      [app.py]: the default of [observed] in a group-by over a categorical
      column, and which of two equal keys the default (not stable) sort of
      [sort_values] puts first.  They are the fields of [PandasRuntime]. *)

From Stdlib Require Import ZArith Lia OrderedTypeEx.
From stdpp Require Import base decidable option list sorting gmap strings pretty.

(* ===================================================================== *)
(** * Data model *)
(* ===================================================================== *)

(** A calendar date, as [pd.to_datetime] parses the [date] column. *)
Record Date := { d_year : Z; d_month : Z; d_day : Z }.

(** A monthly period, the value of [.dt.to_period("M")]. *)
Record Period := { p_year : Z; p_month : Z }.

(** One row of [df].  The derived column [year] is the function [year]. *)
Record Incident := {
  Incident_ID : option Z;
  date : Date;
  Country : string;
  Region : string;
  Means_of_attack : option string;
  Attack_context : option string;
  Actor_type : string;
  total_casualties : Z;
  Total_affected : Z
}.

Definition year (r : Incident) : Z := d_year (date r).

#[global] Instance Date_eq_dec : EqDecision Date.
Proof. solve_decision. Defined.

#[global] Instance Period_eq_dec : EqDecision Period.
Proof. solve_decision. Defined.

#[global] Instance Incident_eq_dec : EqDecision Incident.
Proof. solve_decision. Defined.

(** The exceptions the pipeline can raise. *)
Inductive exn := IndexError | ValueError | KeyError.

Inductive result (A : Type) : Type :=
| Ok (a : A)
| Raise (e : exn).
Arguments Ok {A} a.
Arguments Raise {A} e.

#[global] Instance result_ret : MRet result := λ A a, Ok a.
#[global] Instance result_bind : MBind result := λ A B f r,
  match r with Ok a => f a | Raise e => Raise e end.
#[global] Instance result_fmap : FMap result := λ A B f r,
  match r with Ok a => Ok (f a) | Raise e => Raise e end.

(* ===================================================================== *)
(** * Python values *)
(* ===================================================================== *)

Module Py.

(** [bool(region)] for the value of the dropdown: [None] and the empty
    string are falsy, every other string is truthy. *)
Definition truthy (v : option string) : bool :=
  match v with
  | None => false
  | Some s => if decide (s = "") then false else true
  end.

(** [l[:stop]]: a negative [stop] counts from the end. *)
Definition slice_to {A} (l : list A) (stop : Z) : list A :=
  if decide (stop < 0)%Z
  then take (Z.to_nat (Z.of_nat (length l) + stop)) l
  else take (Z.to_nat stop) l.

(** [b <= m] where [m] may be NaN: a comparison with NaN is false. *)
Definition le_nan (b : Z) (m : option Z) : Prop :=
  match m with Some m => (b ≤ m)%Z | None => False end.

#[global] Instance le_nan_dec b m : Decision (le_nan b m).
Proof. destruct m; simpl; apply _. Defined.

End Py.

(* ===================================================================== *)
(** * Orders on group keys *)
(* ===================================================================== *)

(** Python compares strings by code point, which on UTF-8 bytes is the
    byte-wise lexicographic order. *)
Definition str_le (s t : string) : Prop := String.leb s t = true.

#[global] Instance str_le_dec : RelDecision str_le.
Proof. intros s t. unfold str_le. apply _. Defined.

(** Tuples of keys compare lexicographically. *)
Definition lex_le {A B} (leA : relation A) (leB : relation B) : relation (A * B) :=
  λ p q, (p.1 ≠ q.1 ∧ leA p.1 q.1) ∨ (p.1 = q.1 ∧ leB p.2 q.2).

#[global] Instance lex_le_dec {A B} `{EqDecision A} (leA : relation A) (leB : relation B)
  `{!RelDecision leA, !RelDecision leB} : RelDecision (lex_le leA leB).
Proof. intros p q. unfold lex_le. apply _. Defined.

(** Periods compare chronologically. *)
Definition period_le (p q : Period) : Prop :=
  (p_year p < p_year q)%Z ∨ (p_year p = p_year q ∧ (p_month p ≤ p_month q)%Z).

Definition period_lt (p q : Period) : Prop :=
  (p_year p < p_year q)%Z ∨ (p_year p = p_year q ∧ (p_month p < p_month q)%Z).

#[global] Instance period_le_dec : RelDecision period_le.
Proof. intros p q. unfold period_le. apply _. Defined.

(* ===================================================================== *)
(** * pandas *)
(* ===================================================================== *)

(** An ordered categorical column: a code per row ([None] is NaN) into the
    list of categories. *)
Record Categorical := { codes : list (option nat); categories : list string }.

(** What the installed pandas decides: [groupby_observed] is the default of
    [observed] in [groupby] (False before pandas 3, True from pandas 3);
    [sort_values_desc] is [sort_values(by="count", ascending=False)] with
    the default [kind="quicksort"], which orders by count and promises
    nothing about rows of equal count. *)
Class PandasRuntime := {
  groupby_observed : bool;
  sort_values_desc : list (string * nat) → list (string * nat);
  sort_values_desc_perm : ∀ l, sort_values_desc l ≡ₚ l;
  sort_values_desc_sorted : ∀ l,
    StronglySorted (λ a b : string * nat, b.2 ≤ a.2) (sort_values_desc l)
}.

(** The range of numpy's int64. *)
Definition int64_min : Z := (-9223372036854775808)%Z.
Definition int64_max : Z := 9223372036854775807%Z.

Module Pd.

(** Arithmetic on int64 wraps around. *)
Definition int64_wrap (z : Z) : Z :=
  ((z - int64_min) mod 18446744073709551616 + int64_min)%Z.

(** [Series.max()]: NaN on an empty series. *)
Definition series_max (s : list Z) : option Z :=
  match s with
  | [] => None
  | x :: s' => Some (foldr Z.max x s')
  end.

(** The [sum] aggregation of an int64 column. *)
Definition series_sum (s : list Z) : Z := int64_wrap (foldr Z.add 0%Z s).

(** [bins.searchsorted(x, side="left")] on increasing [bins]: the number
    of edges strictly below [x]. *)
Definition searchsorted_left (bins : list Z) (x : Z) : nat :=
  length (filter (λ b, (b < x)%Z) bins).

(** The bucket of one value in [pd.cut(..., right=True,
    include_lowest=True)]: [ids[x == bins[0]] = 1], then the ids
    [0] and [len(bins)] are NaN and the others are shifted down by one. *)
Definition cut_code (bins : list Z) (lowest : Z) (x : Z) : option nat :=
  let id := if decide (x = lowest) then 1 else searchsorted_left bins x in
  if decide (id = length bins ∨ id = 0) then None else Some (id - 1).

(** [pd.cut(x, bins=bins, labels=labels, include_lowest=True)] for a list
    of edges.  The checks are in the order pandas makes them: edges
    increase, edges are unique, [bins[0]] exists, labels are unique and
    one fewer than the edges. *)
Definition cut (x : list Z) (bins : list Z) (labels : list string) : result Categorical :=
  if decide (Sorted Z.le bins) then
    if decide (¬ NoDup bins ∧ length bins ≠ 2) then Raise ValueError
    else
      match bins with
      | [] => Raise IndexError
      | lowest :: _ =>
          if decide (NoDup labels) then
            if decide (length labels = length bins - 1)
            then Ok {| codes := cut_code bins lowest <$> x; categories := labels |}
            else Raise ValueError
          else Raise ValueError
      end
  else Raise ValueError.

Section groupby.
Context {A K : Type} `{EqDecision K} (le : relation K) `{!RelDecision le}.

(** The keys of a group-by: the distinct keys, sorted. *)
Definition group_keys (ks : list K) : list K := merge_sort le (remove_dups ks).

(** [rows.groupby(key)]: one group per distinct key, in key order; a
    row whose key is NaN is in no group ([dropna=True]). *)
Definition groupby (key : A → option K) (rows : list A) : list (K * list A) :=
  (λ k, (k, filter (λ r, key r = Some k) rows)) <$> group_keys (omap key rows).

(** [.size()] *)
Definition size (g : list (K * list A)) : list (K * nat) :=
  prod_map id length <$> g.
End groupby.

(** [.agg({"Incident ID": "count"})]: the rows whose cell is not NaN. *)
Definition count_notna {A B} (col : A → option B) (g : list A) : nat :=
  length (filter (λ r, is_Some (col r)) g).

(** [.iloc[0]] *)
Definition iloc0 {A} (l : list A) : result A :=
  match l with
  | [] => Raise IndexError
  | x :: _ => Ok x
  end.

(** [.dt.to_period("M")] and [.dt.to_timestamp()]: the start of the
    period. *)
Definition to_period_M (d : Date) : Period :=
  {| p_year := d_year d; p_month := d_month d |}.

Definition to_timestamp (p : Period) : Date :=
  {| d_year := p_year p; d_month := p_month p; d_day := 1 |}.

End Pd.

(* ===================================================================== *)
(** * DataFrames as heap objects *)
(* ===================================================================== *)

(** A frame of incident rows, with the column [casualty_range] once it has
    been assigned. *)
Record DataFrame := {
  df_rows : list Incident;
  df_casualty_range : option Categorical
}.

Definition frame_of (rows : list Incident) : DataFrame :=
  {| df_rows := rows; df_casualty_range := None |}.

Abbreviation loc := nat (only parsing).
Abbreviation heap := (gmap nat DataFrame) (only parsing).

(** Programs over the heap that may raise; the heap survives a raise. *)
Definition M (A : Type) : Type := heap → result A * heap.

#[global] Instance M_ret : MRet M := λ A a h, (Ok a, h).
#[global] Instance M_bind : MBind M := λ A B f m h,
  match m h with
  | (Ok a, h') => f a h'
  | (Raise e, h') => (Raise e, h')
  end.

Module Frame.

Definition lift {A} (r : result A) : M A := λ h, (r, h).

Definition alloc (f : DataFrame) : M loc := λ h,
  let l := fresh (dom h) in (Ok l, <[l := f]> h).

Definition load (l : loc) : M DataFrame := λ h,
  match h !! l with
  | Some f => (Ok f, h)
  | None => (Raise KeyError, h)
  end.

(** [frame.copy()] *)
Definition copy (l : loc) : M loc := f ← load l; alloc f.

(** [frame[mask]]: a new frame with the rows where the mask holds. *)
Definition select (P : Incident → Prop) `{∀ r, Decision (P r)} (l : loc) : M loc :=
  f ← load l;
  alloc {| df_rows := filter P (df_rows f);
           df_casualty_range :=
             (λ c, {| codes := (filter (λ rc, P rc.1) (zip (df_rows f) (codes c))).*2;
                      categories := categories c |}) <$> df_casualty_range f |}.

(** [frame["casualty_range"] = c]: writes to the object at [l]. *)
Definition setitem_casualty_range (l : loc) (c : Categorical) : M () := λ h,
  match h !! l with
  | Some f => (Ok (), <[l := {| df_rows := df_rows f; df_casualty_range := Some c |}]> h)
  | None => (Raise KeyError, h)
  end.

End Frame.

(* ===================================================================== *)
(** * The pipeline of [update_visuals] *)
(* ===================================================================== *)

Record TrendRow := {
  t_date : Date;
  t_Incident_ID : nat;
  t_total_casualties : Z
}.

(** The frames handed to the six figures, and the narration. *)
Record Views := {
  v_sb_grouped : list (string * string * nat);
  v_tree_grouped : list (string * string * nat);
  v_heatdata : list (string * nat);
  v_trend : list TrendRow;
  v_yearwise : list (Z * string * nat);
  v_actor : list (string * Z * nat);
  v_narration : string
}.

(** Lines 74 to 77: the ladder, cut at [max_cas] and closed by
    [max_cas + 1].  [bins and bins[-1] < max_cas] is false on an empty
    list and when [max_cas] is NaN.  [max_cas] is a numpy int64 and so is
    [max_cas + 1]: the successor below the largest int64, and the smallest
    int64 at the largest (an int64 column holds nothing above it). *)
Definition ladder : list Z := [0; 1; 5; 10; 20; 50; 100; 200; 500; 1000]%Z.

Definition int64_succ (m : Z) : Z :=
  if decide (m < int64_max)%Z then (m + 1)%Z else int64_min.

Definition casualty_bins (max_cas : option Z) : list Z :=
  let bins := filter (λ b, Py.le_nan b max_cas) ladder in
  match last bins, max_cas with
  | Some b, Some m => if decide (b < m)%Z then bins ++ [int64_succ m] else bins
  | _, _ => bins
  end.

(** Lines 78 and 79. *)
Definition all_labels : list string :=
  ["1"; "2–5"; "6–10"; "11–20"; "21–50"; "51–100"; "101–200"; "201–500";
   "501–1000"; "1000+"].

Definition casualty_labels (bins : list Z) : list string :=
  Py.slice_to all_labels (Z.of_nat (length bins) - 1).

(** Lines 73 to 80, on the rows of [sb_data]. *)
Definition casualty_binner (sb_rows : list Incident) : result Categorical :=
  let x := total_casualties <$> sb_rows in
  let max_cas := Pd.series_max x in
  let bins := casualty_bins max_cas in
  let labels := casualty_labels bins in
  Pd.cut x bins labels.

Definition label_of (c : Categorical) (k : nat) : string :=
  default "" (categories c !! k).

Section pipeline.
Context `{PandasRuntime}.

(** Line 81: group by bucket and region.  With [observed=False] the
    result has a row for every category and every region of the frame,
    of count 0 where no row falls. *)
Definition sb_grouped (sb : DataFrame) : result (list (string * string * nat)) :=
  match df_casualty_range sb with
  | None => Raise KeyError
  | Some c =>
      let labelled := zip (df_rows sb) (codes c) in
      Ok (if groupby_observed
          then (λ g : nat * string * list (Incident * option nat),
                  (label_of c g.1.1, g.1.2, length g.2)) <$>
               Pd.groupby (lex_le le str_le)
                 (λ rc, (λ k, (k, Region rc.1)) <$> rc.2) labelled
          else k ← seq 0 (length (categories c));
               reg ← Pd.group_keys str_le (Region <$> df_rows sb);
               [(label_of c k, reg,
                 length (filter (λ rc, rc.2 = Some k ∧ Region rc.1 = reg) labelled))])
  end.

(** Lines 87 and 88. *)
Definition treedata (dff : list Incident) : list Incident :=
  filter (λ r, is_Some (Means_of_attack r) ∧ is_Some (Attack_context r)) dff.

Definition tree_grouped (dff : list Incident) : list (string * string * nat) :=
  Pd.size (Pd.groupby (lex_le str_le str_le)
             (λ r, m ← Means_of_attack r; c ← Attack_context r; Some (m, c))
             (treedata dff)).

(** Line 93. *)
Definition heatdata (dff : list Incident) : list (string * nat) :=
  Pd.size (Pd.groupby str_le (λ r, Some (Country r)) dff).

(** Lines 98 to 102. *)
Definition trend (dff : list Incident) : list TrendRow :=
  (λ g : Period * list Incident,
     {| t_date := Pd.to_timestamp g.1;
        t_Incident_ID := Pd.count_notna Incident_ID g.2;
        t_total_casualties := Pd.series_sum (total_casualties <$> g.2) |}) <$>
  Pd.groupby period_le (λ r, Some (Pd.to_period_M (date r))) dff.

(** Line 109. *)
Definition yearwise (dff : list Incident) : list (Z * string * nat) :=
  (λ g : Z * string * list Incident, (g.1, Pd.count_notna Incident_ID g.2)) <$>
  Pd.groupby (lex_le Z.le str_le) (λ r, Some (year r, Region r)) dff.

(** Lines 114 to 117. *)
Definition actor (dff : list Incident) : list (string * Z * nat) :=
  (λ g : string * list Incident,
     (g.1, Pd.series_sum (Total_affected <$> g.2), Pd.count_notna Incident_ID g.2)) <$>
  Pd.groupby str_le (λ r, Some (Actor_type r)) dff.

(** Lines 124 and 125. *)
Definition top_country (heat : list (string * nat)) : result string :=
  fst <$> Pd.iloc0 (sort_values_desc heat).

Definition narration (top : string) : string :=
  "🧠 Personal Insight: " +:+ top +:+ " currently ranks highest in reported incidents.".

(** The callback.  [df] is the module-level frame.  The calls of plotly
    that turn a frame into a figure (lines 82 to 85, 89 to 91, 94 to 96,
    103 to 107, 110 to 112 and 118 to 122) are not embedded: the value
    returned is the frames they are given, and the narration. *)
Definition update_visuals (df : loc) (region : option string) : M Views :=
  dff ← Frame.copy df;
  dff ← (if Py.truthy region
         then Frame.select (λ r, Some (Region r) = region) dff
         else mret dff);
  positive ← Frame.select (λ r, (0 < total_casualties r)%Z) dff;
  sb_data ← Frame.copy positive;
  sb ← Frame.load sb_data;
  cr ← Frame.lift (casualty_binner (df_rows sb));
  Frame.setitem_casualty_range sb_data cr;;
  sb ← Frame.load sb_data;
  sbg ← Frame.lift (sb_grouped sb);
  d ← Frame.load dff;
  let heat := heatdata (df_rows d) in
  top ← Frame.lift (top_country heat);
  mret {| v_sb_grouped := sbg;
          v_tree_grouped := tree_grouped (df_rows d);
          v_heatdata := heat;
          v_trend := trend (df_rows d);
          v_yearwise := yearwise (df_rows d);
          v_actor := actor (df_rows d);
          v_narration := narration top |}.

(** The same computation as a function of the rows of [df]: what the
    callback returns, whatever the heap it runs in. *)
Definition region_filter (table : list Incident) (region : option string) : list Incident :=
  if Py.truthy region then filter (λ r, Some (Region r) = region) table else table.

Definition sb_data_rows (dff : list Incident) : list Incident :=
  filter (λ r, (0 < total_casualties r)%Z) dff.

Definition views_of (dff : list Incident) : result Views :=
  let sb := sb_data_rows dff in
  cr ← casualty_binner sb;
  sbg ← sb_grouped {| df_rows := sb; df_casualty_range := Some cr |};
  let heat := heatdata dff in
  top ← top_country heat;
  Ok {| v_sb_grouped := sbg;
        v_tree_grouped := tree_grouped dff;
        v_heatdata := heat;
        v_trend := trend dff;
        v_yearwise := yearwise dff;
        v_actor := actor dff;
        v_narration := narration top |}.

Definition compute_views (table : list Incident) (region : option string) : result Views :=
  views_of (region_filter table region).

End pipeline.

(* ===================================================================== *)
(** * Vocabulary of the properties *)
(* ===================================================================== *)

(** Bucket [k] of the edges [bins] holds [x]: the interval
    [(bins[k], bins[k+1]]], closed on the left as well for the first
    bucket ([include_lowest=True]). *)
Definition in_bucket (bins : list Z) (k : nat) (x : Z) : Prop :=
  ∃ lo hi, bins !! k = Some lo ∧ bins !! S k = Some hi ∧
           (((lo < x)%Z ∧ (x ≤ hi)%Z) ∨ (k = 0 ∧ x = lo)).

(** Dates compare chronologically. *)
Definition date_lt (d e : Date) : Prop :=
  (d_year d < d_year e)%Z ∨
  (d_year d = d_year e ∧
   ((d_month d < d_month e)%Z ∨ (d_month d = d_month e ∧ (d_day d < d_day e)%Z))).

(** Row [r] falls in the calendar month that starts on [d]. *)
Definition in_month (d : Date) (r : Incident) : Prop :=
  d_year (date r) = d_year d ∧ d_month (date r) = d_month d.

#[global] Instance in_month_dec d r : Decision (in_month d r).
Proof. unfold in_month. apply _. Defined.

(** The sum of a column over rows, in the integers. *)
Fixpoint sum_of {A} (f : A → Z) (l : list A) : Z :=
  match l with
  | [] => 0%Z
  | x :: l' => (f x + sum_of f l')%Z
  end.

(** The int64 cell [t] holds the integer [s]: [t] is within the range of
    int64 and differs from [s] by a multiple of 2^64.  It is [s] itself
    when [s] is within the range. *)
Definition int64_of (s t : Z) : Prop :=
  (int64_min ≤ t ≤ int64_max)%Z ∧ (18446744073709551616 | t - s)%Z.

(** The total of the counts of an aggregate. *)
Definition total_count {K} (g : list (K * nat)) : nat := sum_list (g.*2).

(** [c] is a key of maximal count in the aggregate [heat]. *)
Definition some_max (heat : list (string * nat)) (c : string) : Prop :=
  ∃ n, (c, n) ∈ heat ∧ ∀ p, p ∈ heat → p.2 ≤ n.

(** Two sorts by descending count.  [insert_desc false] puts a row before
    the rows of equal count that follow it in the input, so the sort is
    stable; [insert_desc true] puts it after them. *)
Fixpoint insert_desc (after_equal : bool) (x : string * nat) (l : list (string * nat))
  : list (string * nat) :=
  match l with
  | [] => [x]
  | y :: l' =>
      if (if after_equal then bool_decide (y.2 < x.2) else bool_decide (y.2 ≤ x.2))
      then x :: l
      else y :: insert_desc after_equal x l'
  end.

Definition isort_desc (after_equal : bool) (l : list (string * nat)) : list (string * nat) :=
  foldr (insert_desc after_equal) [] l.

(** A pandas whose sort is one of the two insertion sorts: both return a
    permutation of the aggregate in descending order of count. *)
Definition runtime (observed after_equal : bool) : PandasRuntime.
Proof.
  assert (∀ x l, insert_desc after_equal x l ≡ₚ x :: l) as Hperm.
  { intros x l. induction l as [|y l IH]; simpl; [done|].
    destruct (if after_equal then _ else _); [done|].
    rewrite IH. apply Permutation_swap. }
  refine {| groupby_observed := observed;
            sort_values_desc := isort_desc after_equal |}.
  - intros l. induction l as [|x l IH]; simpl; [done|]. by rewrite Hperm, IH.
  - intros l. induction l as [|x l IH]; simpl; [constructor|].
    generalize dependent (isort_desc after_equal l). clear l.
    intros s Hs. induction Hs as [|y s Hs IH Hy]; simpl; [repeat constructor|].
    destruct (if after_equal then _ else _) eqn:Hc.
    + constructor; [by constructor|].
      assert (y.2 ≤ x.2) as Hyx.
      { destruct after_equal; apply bool_decide_eq_true in Hc; lia. }
      constructor; [done|]. eapply Forall_impl; [done|]. simpl. lia.
    + constructor; [done|].
      assert (x.2 ≤ y.2) as Hxy.
      { destruct after_equal; apply bool_decide_eq_false in Hc; lia. }
      rewrite Hperm. by constructor.
Defined.

(** Rows of the examples. *)
Definition incident (id : Z) (y m d : Z) (country reg : string) (cas : Z) : Incident :=
  {| Incident_ID := Some id;
     date := {| d_year := y; d_month := m; d_day := d |};
     Country := country; Region := reg;
     Means_of_attack := Some "Shooting"; Attack_context := Some "Ambush";
     Actor_type := "Unknown"; total_casualties := cas; Total_affected := cas |}.

Definition scenario1 : list Incident := [incident 1 2020 3 14 "Italy" "X" 3].

Definition scenario2 : list Incident :=
  (λ i, incident (Z.of_nat i) 2021 5 (Z.of_nat i + 1) "Mali" "Africa" 0) <$> seq 0 10.

Definition tied : list Incident :=
  [incident 1 2020 3 14 "Iraq" "Asia" 2; incident 2 2020 4 2 "Mali" "Africa" 1].

(** A row whose incident id is missing. *)
Definition no_id : Incident :=
  {| Incident_ID := None;
     date := {| d_year := 2020; d_month := 3; d_day := 14 |};
     Country := "Iraq"; Region := "Asia";
     Means_of_attack := Some "Shooting"; Attack_context := Some "Ambush";
     Actor_type := "Unknown"; total_casualties := 2; Total_affected := 2 |}.

(** Two rows of one month whose casualties, 2^62 each, add up to 2^63, one
    more than the largest int64. *)
Definition heavy_month : list Incident :=
  [{| Incident_ID := Some 1%Z;
      date := {| d_year := 2020; d_month := 3; d_day := 14 |};
      Country := "Iraq"; Region := "Asia";
      Means_of_attack := Some "Shooting"; Attack_context := Some "Ambush";
      Actor_type := "Unknown"; total_casualties := 4611686018427387904;
      Total_affected := 1 |};
   {| Incident_ID := Some 2%Z;
      date := {| d_year := 2020; d_month := 3; d_day := 20 |};
      Country := "Mali"; Region := "Africa";
      Means_of_attack := Some "Shooting"; Attack_context := Some "Ambush";
      Actor_type := "Unknown"; total_casualties := 4611686018427387904;
      Total_affected := 1 |}].

(* ===================================================================== *)
(** * The loader and the layout *)
(* ===================================================================== *)

(** A row as [pd.read_csv] returns it, the date parsed by
    [pd.to_datetime]: the region may be missing. *)
Record RawIncident := {
  raw_Incident_ID : option Z;
  raw_date : Date;
  raw_Country : string;
  raw_Region : option string;
  raw_Means_of_attack : option string;
  raw_Attack_context : option string;
  raw_Actor_type : string;
  raw_total_casualties : Z;
  raw_Total_affected : Z
}.

(** Lines 9 to 12: [df["Region"].fillna("Unknown")]. *)
Definition load_row (r : RawIncident) : Incident :=
  {| Incident_ID := raw_Incident_ID r;
     date := raw_date r;
     Country := raw_Country r;
     Region := default "Unknown" (raw_Region r);
     Means_of_attack := raw_Means_of_attack r;
     Attack_context := raw_Attack_context r;
     Actor_type := raw_Actor_type r;
     total_casualties := raw_total_casualties r;
     Total_affected := raw_Total_affected r |}.

Definition load_data (raw : list RawIncident) : list Incident := load_row <$> raw.

(** Line 27, the values of the dropdown: [sorted(df["Region"].unique())]. *)
Definition region_options (table : list Incident) : list string :=
  merge_sort str_le (remove_dups (Region <$> table)).

(** Strings in strictly ascending order. *)
Definition str_lt (s t : string) : Prop := str_le s t ∧ s ≠ t.

(** The text that names bucket [k] of the full ladder: the values above
    edge [k] up to edge [k + 1], and the values above the last edge. *)
Definition ladder_label (k : nat) : option string :=
  match ladder !! k, ladder !! S k with
  | Some lo, Some hi =>
      Some (if decide (lo + 1 = hi)%Z then pretty hi
            else pretty (lo + 1)%Z +:+ "–" +:+ pretty hi)
  | Some lo, None => Some (pretty lo +:+ "+")
  | None, _ => None
  end.

(** Bucket [k] of the full ladder holds [x]; the last bucket has no upper
    edge. *)
Definition in_ladder_bucket (k : nat) (x : Z) : Prop :=
  match ladder !! k, ladder !! S k with
  | Some lo, Some hi => (lo < x ≤ hi)%Z
  | Some lo, None => (lo < x)%Z
  | None, _ => False
  end.

(** The bucket of the full ladder for a number of casualties. *)
Definition ladder_code (x : Z) : nat := Pd.searchsorted_left ladder x - 1.

(* ===================================================================== *)
(** * Group-by *)
(* ===================================================================== *)

Section groupby_facts.
Context {A K : Type} `{EqDecision K} (le : relation K) `{!RelDecision le}.
Implicit Types (key : A → option K) (rows : list A) (ks : list K).

Lemma group_keys_perm ks : Pd.group_keys le ks ≡ₚ remove_dups ks.
Proof. apply merge_sort_Permutation. Qed.

Lemma group_keys_NoDup ks : NoDup (Pd.group_keys le ks).
Proof. rewrite group_keys_perm. apply NoDup_remove_dups. Qed.

Lemma elem_of_group_keys ks k : k ∈ Pd.group_keys le ks ↔ k ∈ ks.
Proof. rewrite group_keys_perm. apply elem_of_remove_dups. Qed.

Lemma groupby_keys key rows :
  (Pd.groupby le key rows).*1 = Pd.group_keys le (omap key rows).
Proof.
  unfold Pd.groupby. rewrite <- list_fmap_compose.
  generalize (Pd.group_keys le (omap key rows)) as ks.
  induction ks as [|k ks IH]; [done|]. cbn in *. by f_equal.
Qed.

Lemma elem_of_groupby key rows k g :
  (k, g) ∈ Pd.groupby le key rows ↔
  (∃ r, r ∈ rows ∧ key r = Some k) ∧ g = filter (λ r, key r = Some k) rows.
Proof.
  unfold Pd.groupby. rewrite list_elem_of_fmap. split.
  - intros (k' & [= -> ->] & Hk). split; [|done].
    apply elem_of_group_keys, list_elem_of_omap in Hk. done.
  - intros [Hk ->]. exists k. split; [done|].
    apply elem_of_group_keys, list_elem_of_omap. done.
Qed.

(** A row adds one to the group of its key and nothing to the others. *)
Lemma sum_indicator ks k :
  NoDup ks → k ∈ ks →
  sum_list_with (λ k', if decide (Some k = Some k') then 1 else 0) ks = 1.
Proof.
  induction 1 as [|k' ks Hnotin Hnd IH]; [by intros ?%elem_of_nil|].
  intros Hin. simpl. destruct (decide (Some k = Some k')) as [[= ->]|Hne].
  - assert (sum_list_with (λ k'0, if decide (Some k' = Some k'0) then 1 else 0) ks = 0) as ->; [|done].
    clear IH Hin Hnd. induction ks as [|k2 ks IH]; [done|]. simpl.
    rewrite decide_False by (intros [= ->]; apply Hnotin; left).
    rewrite IH; [done|]. intros ?; apply Hnotin; by right.
  - apply elem_of_cons in Hin as [->|Hin]; [done|]. by rewrite IH.
Qed.

Lemma sum_indicator_notin ks (o : option K) :
  (∀ k, o = Some k → k ∉ ks) →
  sum_list_with (λ k', if decide (o = Some k') then 1 else 0) ks = 0.
Proof.
  induction ks as [|k' ks IH]; [done|]. intros Hno. simpl.
  rewrite decide_False by (intros ->; eapply Hno; [done|left]).
  rewrite IH; [done|]. intros k -> ?. eapply Hno; [done|by right].
Qed.

Lemma sum_group_sizes key rows ks :
  NoDup ks → (∀ r k, r ∈ rows → key r = Some k → k ∈ ks) →
  sum_list_with (λ k, length (filter (λ r, key r = Some k) rows)) ks =
  length (filter (λ r, is_Some (key r)) rows).
Proof.
  intros Hnd. induction rows as [|r rows IH]; intros Hks.
  - clear. induction ks as [|k ks IH]; [done|]. simpl in *. by rewrite IH.
  - assert (sum_list_with (λ k, length (filter (λ r0, key r0 = Some k) (r :: rows))) ks =
            sum_list_with (λ k, if decide (key r = Some k) then 1 else 0) ks +
            sum_list_with (λ k, length (filter (λ r0, key r0 = Some k) rows)) ks) as ->.
    { clear. induction ks as [|k ks IH]; [done|]. simpl. rewrite IH.
      rewrite filter_cons. destruct (decide (key r = Some k)); simpl; lia. }
    rewrite IH by (intros; eapply Hks; [by right|done]).
    rewrite filter_cons. destruct (key r) as [k|] eqn:Hk.
    + rewrite decide_True by done. simpl.
      rewrite sum_indicator; [done|done|]. eapply Hks; [left|done].
    + rewrite decide_False by (by intros [? ?]).
      rewrite sum_indicator_notin; [done|]. intros ? [=].
Qed.

(** The group sizes add up to the number of rows that have a key. *)
Lemma total_count_size key rows :
  total_count (Pd.size (Pd.groupby le key rows)) =
  length (filter (λ r, is_Some (key r)) rows).
Proof.
  unfold total_count, Pd.size, Pd.groupby.
  rewrite <- !list_fmap_compose.
  rewrite <- (sum_group_sizes key rows (Pd.group_keys le (omap key rows))).
  - generalize (Pd.group_keys le (omap key rows)) as ks.
    induction ks as [|k ks IH]; [done|]. cbn in *. by rewrite IH.
  - apply group_keys_NoDup.
  - intros r k Hr Hk. apply elem_of_group_keys, list_elem_of_omap. eauto.
Qed.
End groupby_facts.

(* ===================================================================== *)
(** * Sorted lists of edges *)
(* ===================================================================== *)

Section sorted_facts.
Context {A : Type} (R : relation A).

Lemma StronglySorted_filter (P : A → Prop) `{∀ x, Decision (P x)} l :
  StronglySorted R l → StronglySorted R (filter P l).
Proof.
  induction 1 as [|x l Hl IH Hx]; [constructor|].
  rewrite filter_cons. destruct (decide (P x)); [|done].
  constructor; [done|]. apply Forall_forall. intros y [_ Hy]%list_elem_of_filter.
  rewrite Forall_forall in Hx. auto.
Qed.

Lemma StronglySorted_snoc l x :
  StronglySorted R l → Forall (λ y, R y x) l → StronglySorted R (l ++ [x]).
Proof.
  induction 1 as [|y l Hl IH Hy]; intros Hall; simpl.
  - repeat constructor.
  - inversion Hall; subst. constructor; [auto|].
    apply Forall_app. split; [done|]. by constructor.
Qed.

Lemma StronglySorted_weaken (R' : relation A) l :
  (∀ x y, R x y → R' x y) → StronglySorted R l → StronglySorted R' l.
Proof.
  intros HR. induction 1 as [|x l Hl IH Hx]; constructor; [done|].
  eapply Forall_impl; [done|]. auto.
Qed.

Lemma StronglySorted_lookup l i j x y :
  StronglySorted R l → l !! i = Some x → l !! j = Some y → i < j → R x y.
Proof.
  intros Hl. revert i j. induction Hl as [|z l Hl IH Hz]; intros i j Hi Hj Hij.
  - by rewrite lookup_nil in Hi.
  - destruct j as [|j]; [lia|]. destruct i as [|i]; simpl in *.
    + injection Hi as ->. rewrite Forall_forall in Hz.
      apply Hz. by eapply list_elem_of_lookup_2.
    + eapply IH; [done..|lia].
Qed.

Lemma StronglySorted_NoDup `{!Irreflexive R} l : StronglySorted R l → NoDup l.
Proof.
  induction 1 as [|x l Hl IH Hx]; constructor; [|done].
  intros Hin. rewrite Forall_forall in Hx. by apply (irreflexivity R x), Hx.
Qed.
End sorted_facts.

Lemma filter_none {A} (P : A → Prop) `{∀ x, Decision (P x)} (l : list A) :
  Forall (λ x, ¬ P x) l → filter P l = [].
Proof.
  induction 1 as [|x l Hx Hl IH]; [done|]. by rewrite filter_cons_False.
Qed.

(** In strictly increasing edges the edges below [x] are exactly the first
    [searchsorted_left bins x] ones. *)
Lemma searchsorted_left_spec bins x i y :
  StronglySorted Z.lt bins → bins !! i = Some y →
  i < Pd.searchsorted_left bins x ↔ (y < x)%Z.
Proof.
  unfold Pd.searchsorted_left. intros Hs. revert i.
  induction Hs as [|a l Hl IH Ha]; intros i Hi; [by rewrite lookup_nil in Hi|].
  rewrite filter_cons. destruct (decide (a < x)%Z) as [Hax|Hax].
  - destruct i as [|i]; simpl in *.
    + injection Hi as ->. split; [done|lia].
    + rewrite <- (IH i Hi). lia.
  - assert (filter (λ b, (b < x)%Z) l = []) as ->.
    { apply filter_none. rewrite Forall_forall in Ha |- *. intros b Hb Hbx.
      specialize (Ha b Hb). lia. }
    simpl. split; [lia|]. intros Hyx. destruct i as [|i]; simpl in *.
    + injection Hi as ->. lia.
    + rewrite Forall_forall in Ha. apply list_elem_of_lookup_2, Ha in Hi. lia.
Qed.

Lemma searchsorted_left_le bins x : Pd.searchsorted_left bins x ≤ length bins.
Proof. apply length_filter. Qed.

(** [cut_code] is membership in the bucket. *)
Lemma cut_code_in_bucket lowest bins x k :
  StronglySorted Z.lt (lowest :: bins) → bins ≠ [] →
  Pd.cut_code (lowest :: bins) lowest x = Some k ↔ in_bucket (lowest :: bins) k x.
Proof.
  intros Hs Hne. unfold Pd.cut_code, in_bucket.
  pose proof (λ i y, searchsorted_left_spec (lowest :: bins) x i y Hs) as Hsp.
  pose proof (searchsorted_left_le (lowest :: bins) x) as Hle.
  destruct bins as [|b1 bins]; [done|]. clear Hne.
  destruct (decide (x = lowest)) as [->|Hx].
  - rewrite decide_False by (simpl; lia). split.
    + intros [= <-]. exists lowest, b1. simpl. auto.
    + intros (lo & hi & Hlo & Hhi & [[Hl _]|[-> _]]); [|done].
      destruct k as [|k]; [done|]. exfalso.
      assert (lowest < lo)%Z; [|lia].
      eapply (StronglySorted_lookup Z.lt _ 0 (S k)); [done|done|done|lia].
  - set (n := Pd.searchsorted_left (lowest :: b1 :: bins) x) in *.
    split.
    + destruct (decide _) as [|Hn]; [done|]. intros [= <-].
      assert (0 < n ∧ n < length (lowest :: b1 :: bins)) as [Hn0 Hn1] by lia.
      destruct (lookup_lt_is_Some_2 (lowest :: b1 :: bins) (n - 1)) as [lo Hlo]; [lia|].
      destruct (lookup_lt_is_Some_2 (lowest :: b1 :: bins) n) as [hi Hhi]; [lia|].
      exists lo, hi. replace (S (n - 1)) with n by lia.
      split; [done|]. split; [done|]. left. split.
      * apply (Hsp _ _ Hlo). lia.
      * pose proof (Hsp _ _ Hhi). lia.
    + intros (lo & hi & Hlo & Hhi & [[Hl Hh]|[-> ?]]).
      * apply (Hsp _ _ Hlo) in Hl. pose proof (Hsp _ _ Hhi) as Hhi'.
        assert (n = S k) as Hn by lia.
        apply lookup_lt_Some in Hhi.
        rewrite decide_False by lia. f_equal. lia.
      * simpl in Hlo. congruence.
Qed.

(** A value has a bucket exactly when it lies between the first and the
    last edge. *)
Lemma cut_code_is_Some lowest bins x e :
  StronglySorted Z.lt (lowest :: bins) → last (lowest :: bins) = Some e → bins ≠ [] →
  is_Some (Pd.cut_code (lowest :: bins) lowest x) ↔ (lowest ≤ x ≤ e)%Z.
Proof.
  intros Hs He Hne. unfold Pd.cut_code.
  pose proof (λ i y, searchsorted_left_spec (lowest :: bins) x i y Hs) as Hsp.
  pose proof (searchsorted_left_le (lowest :: bins) x) as Hle.
  rewrite last_lookup in He.
  assert (lowest < e)%Z as Hlow.
  { destruct bins as [|b1 bins]; [done|].
    eapply (StronglySorted_lookup Z.lt _ 0); [done|done|done|simpl; lia]. }
  destruct bins as [|b1 bins]; [done|]. clear Hne.
  destruct (decide (x = lowest)) as [->|Hx].
  - rewrite decide_False by (simpl; lia). split; [lia|eauto].
  - set (n := Pd.searchsorted_left (lowest :: b1 :: bins) x) in *.
    pose proof (Hsp 0 lowest eq_refl) as H0.
    pose proof (Hsp _ e He) as H1. clearbody n. simpl in H1, Hle.
    destruct (decide _) as [Hn|Hn]; simpl in Hn.
    + split; [by intros [? ?]|]. intros [? ?]. exfalso. lia.
    + split; [|eauto]. intros _. lia.
Qed.

(* ===================================================================== *)
(** * The casualty binner *)
(* ===================================================================== *)

Lemma series_max_spec (s : list Z) :
  s ≠ [] → ∃ m, Pd.series_max s = Some m ∧ m ∈ s ∧ ∀ v, v ∈ s → (v ≤ m)%Z.
Proof.
  destruct s as [|x s]; [done|]. intros _. exists (foldr Z.max x s).
  split; [done|]. induction s as [|y s (Hin & Hmax)]; simpl.
  - split; [left|]. intros v ->%list_elem_of_singleton. lia.
  - split.
    + destruct (Z.max_spec y (foldr Z.max x s)) as [[_ ->]|[_ ->]].
      * apply elem_of_cons in Hin as [->|Hin]; [left|right; by right].
      * right; left.
    + intros v Hv. rewrite !elem_of_cons in Hv.
      destruct Hv as [->|[->|Hv]].
      * specialize (Hmax x ltac:(left)). lia.
      * lia.
      * specialize (Hmax v ltac:(by right)). lia.
Qed.

Lemma ladder_sorted : StronglySorted Z.lt ladder.
Proof. unfold ladder. repeat (constructor; [|repeat constructor; lia]). constructor. Qed.

Lemma StronglySorted_last_max (l : list Z) e x :
  StronglySorted Z.lt l → last l = Some e → x ∈ l → (x ≤ e)%Z.
Proof.
  intros Hs He Hx. rewrite last_lookup in He.
  apply list_elem_of_lookup in Hx as [i Hi].
  pose proof (lookup_lt_Some _ _ _ Hi) as Hlt.
  destruct (decide (i = pred (length l))) as [->|Hne]; [by simplify_eq; lia|].
  assert (x < e)%Z; [|lia].
  eapply (StronglySorted_lookup Z.lt l i); [done..|lia].
Qed.

(** The edges computed for a maximum [m ≥ 1] below the largest int64. *)
Lemma casualty_bins_spec m :
  (1 ≤ m)%Z → (m < int64_max)%Z →
  ∃ rest e, casualty_bins (Some m) = 0%Z :: 1%Z :: rest ∧
            StronglySorted Z.lt (casualty_bins (Some m)) ∧
            last (casualty_bins (Some m)) = Some e ∧
            (m ≤ e)%Z ∧ (if decide (m ∈ ladder) then e = m else e = (m + 1)%Z) ∧
            length (casualty_bins (Some m)) ≤ 11.
Proof.
  intros Hm Hmax. unfold casualty_bins.
  assert (int64_succ m = (m + 1)%Z) as ->
    by (unfold int64_succ; by rewrite decide_True).
  set (b1 := filter (λ b, Py.le_nan b (Some m)) ladder).
  assert (StronglySorted Z.lt b1) as Hs1 by apply StronglySorted_filter, ladder_sorted.
  assert (∃ rest, b1 = 0%Z :: 1%Z :: rest) as [rest Hb1].
  { eexists. unfold b1, ladder.
    rewrite filter_cons_True by (simpl; lia).
    rewrite filter_cons_True by (simpl; lia). done. }
  assert (length b1 ≤ 10) as Hlen by apply (length_filter _ ladder).
  assert (∀ b, b ∈ b1 → (b ≤ m)%Z ∧ b ∈ ladder) as Hin.
  { intros b Hb. by apply list_elem_of_filter in Hb. }
  destruct (last b1) as [b|] eqn:Hlast; [|apply last_None in Hlast; congruence].
  pose proof (last_Some_elem_of _ _ Hlast) as Hb.
  destruct (Hin b Hb) as [Hbm Hbl].
  destruct (decide (b < m)%Z) as [Hlt|Hge].
  - exists (rest ++ [(m + 1)%Z]), (m + 1)%Z. split; [by rewrite Hb1|].
    split; [|split; [apply last_snoc|split; [lia|split]]].
    + apply StronglySorted_snoc; [done|]. apply Forall_forall.
      intros y Hy. apply Hin in Hy. lia.
    + rewrite decide_False; [done|]. intros Hml.
      assert (m ∈ b1) as Hmb by (apply list_elem_of_filter; simpl; split; [lia|done]).
      pose proof (StronglySorted_last_max _ _ _ Hs1 Hlast Hmb). lia.
    + rewrite length_app. simpl. lia.
  - assert (b = m) as -> by lia. exists rest, m. split; [done|].
    split; [done|]. split; [done|]. split; [lia|]. split; [by rewrite decide_True|lia].
Qed.

(** At the largest int64 the closing edge wraps to the smallest int64. *)
Lemma casualty_bins_overflow m :
  (int64_max ≤ m)%Z → casualty_bins (Some m) = ladder ++ [int64_min].
Proof.
  intros Hm. unfold casualty_bins, int64_max in *.
  assert (filter (λ b, Py.le_nan b (Some m)) ladder = ladder) as ->.
  { unfold ladder. repeat (rewrite filter_cons_True by (simpl; lia)). done. }
  simpl last. cbv iota. rewrite decide_True by lia.
  unfold int64_succ, int64_max. by rewrite decide_False by lia.
Qed.

Lemma all_labels_NoDup : NoDup all_labels.
Proof. apply (bool_decide_unpack _). by vm_compute. Qed.

Lemma casualty_labels_spec bins :
  1 ≤ length bins ≤ 11 →
  casualty_labels bins = take (length bins - 1) all_labels ∧
  length (casualty_labels bins) = length bins - 1 ∧ NoDup (casualty_labels bins).
Proof.
  intros Hlen. unfold casualty_labels, Py.slice_to.
  rewrite decide_False by lia.
  replace (Z.to_nat (Z.of_nat (length bins) - 1)) with (length bins - 1) by lia.
  split; [done|]. split.
  - rewrite length_take. change (length all_labels) with 10. lia.
  - eapply sublist_NoDup; [apply all_labels_NoDup|apply sublist_take].
Qed.

(** With no row of positive casualties the maximum is NaN, no edge is kept,
    nine labels are, and [pd.cut] raises on [bins[0]]. *)
Lemma casualty_binner_empty : casualty_binner [] = Raise IndexError.
Proof. reflexivity. Qed.

(** With at least one row of positive casualties, all below the largest
    int64, [pd.cut] returns, and the column it returns is the bucket of
    each row. *)
Lemma casualty_binner_ok sb :
  sb ≠ [] → (∀ r, r ∈ sb → (0 < total_casualties r)%Z) →
  (∀ r, r ∈ sb → (total_casualties r < int64_max)%Z) →
  ∃ m, Pd.series_max (total_casualties <$> sb) = Some m ∧ (1 ≤ m)%Z ∧
       (m < int64_max)%Z ∧
       casualty_binner sb =
         Ok {| codes := Pd.cut_code (casualty_bins (Some m)) 0 <$> (total_casualties <$> sb);
               categories := casualty_labels (casualty_bins (Some m)) |}.
Proof.
  intros Hne Hpos Hbound.
  destruct (series_max_spec (total_casualties <$> sb)) as (m & Hmax & Hm & Hle).
  { by destruct sb. }
  exists m. split; [done|].
  apply list_elem_of_fmap in Hm as (r & -> & Hr).
  assert (1 ≤ total_casualties r)%Z as Hm1 by (specialize (Hpos r Hr); lia).
  pose proof (Hbound r Hr) as Hm2.
  split; [done|]. split; [done|]. unfold casualty_binner. rewrite Hmax.
  destruct (casualty_bins_spec _ Hm1 Hm2) as (rest & e & Hb & Hs & Hlast & Hme & _ & Hlen).
  destruct (casualty_labels_spec (casualty_bins (Some (total_casualties r))))
    as (_ & Hll & Hnd).
  { rewrite Hb in *. simpl in *. lia. }
  unfold Pd.cut. rewrite decide_True.
  2:{ apply StronglySorted_Sorted. eapply StronglySorted_weaken; [|done]. intros; lia. }
  rewrite decide_False.
  2:{ intros [Hnd' _]. apply Hnd'. by apply (StronglySorted_NoDup Z.lt). }
  rewrite Hb at 1. rewrite decide_True by done. rewrite decide_True by done. done.
Qed.

(** With a row at the largest int64 the edges do not increase and [pd.cut]
    raises ValueError. *)
Lemma casualty_binner_overflow sb :
  (∃ r, r ∈ sb ∧ (int64_max ≤ total_casualties r)%Z) →
  casualty_binner sb = Raise ValueError.
Proof.
  intros (r & Hr & Hbig).
  destruct (series_max_spec (total_casualties <$> sb)) as (m & Hmax & _ & Hle).
  { intros Hnil. apply fmap_nil_inv in Hnil. rewrite Hnil in Hr.
    by apply elem_of_nil in Hr. }
  assert (int64_max ≤ m)%Z as Hm.
  { etrans; [done|]. apply Hle, list_elem_of_fmap. eauto. }
  unfold casualty_binner. rewrite Hmax, casualty_bins_overflow by done.
  unfold Pd.cut. destruct (decide (Sorted Z.le (ladder ++ [int64_min]))) as [Hs|]; [|done].
  exfalso. apply (bool_decide_pack _) in Hs. by vm_compute in Hs.
Qed.

(** When [pd.cut] returns, the frame has a row and every row is below the
    largest int64. *)
Lemma casualty_binner_Ok_inv sb cr :
  casualty_binner sb = Ok cr →
  sb ≠ [] ∧ ∀ r, r ∈ sb → (total_casualties r < int64_max)%Z.
Proof.
  intros Hcr. split.
  - intros ->. by rewrite casualty_binner_empty in Hcr.
  - intros r Hr. destruct (decide (total_casualties r < int64_max)%Z); [done|].
    rewrite casualty_binner_overflow in Hcr; [done|]. exists r. split; [done|lia].
Qed.

(* ===================================================================== *)
(** * Running the callback in a heap *)
(* ===================================================================== *)

Lemma M_bind_Ok {A B} (m : M A) (k : A → M B) (h h' : heap) a :
  m h = (Ok a, h') → (m ≫= k) h = k a h'.
Proof. unfold mbind, M_bind. by intros ->. Qed.

Lemma M_bind_Raise {A B} (m : M A) (k : A → M B) (h h' : heap) e :
  m h = (Raise e, h') → (m ≫= k) h = (Raise e, h').
Proof. unfold mbind, M_bind. by intros ->. Qed.

Lemma lift_bind_Ok {A B} (a : A) (k : A → M B) (h : heap) :
  (Frame.lift (Ok a) ≫= k) h = k a h.
Proof. done. Qed.

Lemma lift_bind_Raise {A B} e (k : A → M B) (h : heap) :
  (Frame.lift (Raise e) ≫= k) h = (Raise e, h).
Proof. done. Qed.

Lemma result_bind_Ok {A B} (a : A) (k : A → result B) : Ok a ≫= k = k a.
Proof. done. Qed.

Lemma result_bind_Raise {A B} e (k : A → result B) : Raise e ≫= k = Raise e.
Proof. done. Qed.

Lemma fresh_loc_None (h : heap) : h !! fresh (dom h) = None.
Proof. apply not_elem_of_dom, is_fresh. Qed.

Lemma load_run (h : heap) l f : h !! l = Some f → Frame.load l h = (Ok f, h).
Proof. unfold Frame.load. by intros ->. Qed.

Lemma alloc_run (h : heap) f :
  ∃ l, Frame.alloc f h = (Ok l, <[l := f]> h) ∧ h !! l = None.
Proof. exists (fresh (dom h)). split; [done|apply fresh_loc_None]. Qed.

Lemma copy_run (h : heap) l f :
  h !! l = Some f →
  ∃ l', Frame.copy l h = (Ok l', <[l' := f]> h) ∧ h !! l' = None.
Proof.
  intros Hl. destruct (alloc_run h f) as (l' & Ha & Hn). exists l'.
  split; [|done]. unfold Frame.copy.
  by rewrite (M_bind_Ok _ _ _ _ _ (load_run _ _ _ Hl)).
Qed.

Lemma select_run (P : Incident → Prop) `{∀ r, Decision (P r)} (h : heap) l f :
  h !! l = Some f →
  ∃ l' f', Frame.select P l h = (Ok l', <[l' := f']> h) ∧ h !! l' = None ∧
           df_rows f' = filter P (df_rows f).
Proof.
  intros Hl. unfold Frame.select.
  rewrite (M_bind_Ok _ _ _ _ _ (load_run _ _ _ Hl)).
  destruct (alloc_run h
    {| df_rows := filter P (df_rows f);
       df_casualty_range :=
         (λ c, {| codes := (filter (λ rc, P rc.1) (zip (df_rows f) (codes c))).*2;
                  categories := categories c |}) <$> df_casualty_range f |})
    as (l' & Ha & Hn).
  eexists l', _. split; [exact Ha|]. split; [done|done].
Qed.

Lemma setitem_run (h : heap) l f c :
  h !! l = Some f →
  Frame.setitem_casualty_range l c h =
    (Ok (), <[l := {| df_rows := df_rows f; df_casualty_range := Some c |}]> h).
Proof. unfold Frame.setitem_casualty_range. by intros ->. Qed.

Section exec.
Context `{PandasRuntime}.

(** In any heap that holds the table at [df], the callback returns
    [compute_views] of the rows of the table and leaves every object
    that existed before the call as it was. *)
Lemma update_visuals_exec (h : heap) df F region :
  h !! df = Some F →
  ∃ h', update_visuals df region h = (compute_views (df_rows F) region, h') ∧ h ⊆ h'.
Proof.
  intros Hdf. unfold update_visuals, compute_views.
  destruct (copy_run h df F Hdf) as (l1 & E1 & N1).
  rewrite (M_bind_Ok _ _ _ _ _ E1).
  assert (∃ l2 h2 F2,
    (if Py.truthy region
     then Frame.select (λ r, Some (Region r) = region) l1
     else mret l1) (<[l1:=F]> h) = (Ok l2, h2) ∧
    h2 !! l2 = Some F2 ∧ df_rows F2 = region_filter (df_rows F) region ∧ h ⊆ h2)
    as (l2 & h2 & F2 & E2 & L2 & R2 & S2).
  { unfold region_filter. destruct (Py.truthy region).
    - destruct (select_run (λ r, Some (Region r) = region) (<[l1:=F]> h) l1 F)
        as (l2 & F2 & E2 & N2 & R2); [apply lookup_insert_eq|].
      exists l2, (<[l2:=F2]> (<[l1:=F]> h)), F2.
      split; [done|]. split; [apply lookup_insert_eq|]. split; [done|].
      etrans; [by apply insert_subseteq|by apply insert_subseteq].
    - exists l1, (<[l1:=F]> h), F. split; [done|].
      split; [apply lookup_insert_eq|]. split; [done|]. by apply insert_subseteq. }
  rewrite (M_bind_Ok _ _ _ _ _ E2). rewrite <- R2. clear E1 E2.
  destruct (select_run (λ r, (0 < total_casualties r)%Z) h2 l2 F2 L2)
    as (l3 & F3 & E3 & N3 & R3).
  rewrite (M_bind_Ok _ _ _ _ _ E3).
  destruct (copy_run (<[l3:=F3]> h2) l3 F3) as (l4 & E4 & N4); [apply lookup_insert_eq|].
  rewrite (M_bind_Ok _ _ _ _ _ E4).
  set (h3 := <[l3:=F3]> h2) in *.
  assert (h ⊆ h3) as S3 by (etrans; [done|by apply insert_subseteq]).
  assert (h3 !! l2 = Some F2) as L2'.
  { unfold h3. rewrite lookup_insert_ne; [done|]. intros ->. congruence. }
  rewrite (M_bind_Ok _ _ _ _ _ (load_run _ _ _ (lookup_insert_eq h3 l4 F3))).
  unfold views_of, sb_data_rows. rewrite <- R3.
  destruct (casualty_binner (df_rows F3)) as [cr|e] eqn:Hcr.
  2:{ rewrite lift_bind_Raise, result_bind_Raise. exists (<[l4:=F3]> h3).
      split; [done|]. etrans; [done|by apply insert_subseteq]. }
  rewrite lift_bind_Ok, result_bind_Ok.
  rewrite (M_bind_Ok _ _ _ _ _ (setitem_run _ _ _ cr (lookup_insert_eq h3 l4 F3))).
  rewrite insert_insert_eq.
  set (G := {| df_rows := df_rows F3; df_casualty_range := Some cr |}).
  assert (h ⊆ <[l4:=G]> h3) as S4 by (etrans; [done|by apply insert_subseteq]).
  rewrite (M_bind_Ok _ _ _ _ _ (load_run _ _ _ (lookup_insert_eq h3 l4 G))).
  fold G. destruct (sb_grouped G) as [sbg|e] eqn:Hsbg.
  2:{ rewrite lift_bind_Raise, result_bind_Raise. by exists (<[l4:=G]> h3). }
  rewrite lift_bind_Ok, result_bind_Ok.
  assert ((<[l4:=G]> h3) !! l2 = Some F2) as L2''.
  { rewrite lookup_insert_ne; [done|]. intros ->. congruence. }
  rewrite (M_bind_Ok _ _ _ _ _ (load_run _ _ _ L2'')).
  cbv zeta. destruct (top_country (heatdata (df_rows F2))) as [top|e] eqn:Htop.
  2:{ rewrite lift_bind_Raise, result_bind_Raise. by exists (<[l4:=G]> h3). }
  rewrite lift_bind_Ok, result_bind_Ok. by exists (<[l4:=G]> h3).
Qed.

(** A second run, in the heap the first run leaves, returns what the
    first returned. *)
Lemma update_visuals_again (h : heap) df F region :
  h !! df = Some F →
  (update_visuals df region (update_visuals df region h).2).1
  = (update_visuals df region h).1.
Proof.
  intros Hdf. destruct (update_visuals_exec h df F region Hdf) as (h1 & E1 & S1).
  rewrite E1. simpl.
  destruct (update_visuals_exec h1 df F region) as (h2 & E2 & _).
  { by eapply lookup_weaken. }
  by rewrite E2.
Qed.
End exec.

(* ===================================================================== *)
(** * Sorting by count *)
(* ===================================================================== *)

Lemma isort_desc_perm b l : isort_desc b l ≡ₚ l.
Proof. apply (@sort_values_desc_perm (runtime false b)). Qed.

Lemma isort_desc_sorted b l :
  StronglySorted (λ p q : string * nat, q.2 ≤ p.2) (isort_desc b l).
Proof. apply (@sort_values_desc_sorted (runtime false b)). Qed.

(** The first row of the stable sort is the first row of maximal count. *)
Lemma isort_desc_stable_head heat y s :
  isort_desc false heat = y :: s →
  ∃ i, heat !! i = Some y ∧ (∀ p, p ∈ heat → p.2 ≤ y.2) ∧
       (∀ j p, j < i → heat !! j = Some p → p.2 < y.2).
Proof.
  revert y s. induction heat as [|x heat IH]; intros y s; simpl; [done|].
  destruct (isort_desc false heat) as [|z s'] eqn:Hs.
  - pose proof (isort_desc_perm false heat) as Hp. rewrite Hs in Hp.
    apply Permutation_nil_l in Hp. subst heat. simpl. intros ?; simplify_eq.
    exists 0. split; [done|]. split.
    + by intros p ->%list_elem_of_singleton.
    + intros j p ?. lia.
  - destruct (IH z s' eq_refl) as (i & Hi & Hmax & Hbefore).
    simpl. case_bool_decide as Hzx; intros ?; simplify_eq.
    + exists 0. split; [done|]. split.
      * intros p [->|Hp]%elem_of_cons; [done|]. specialize (Hmax p Hp). lia.
      * intros j p ?. lia.
    + exists (S i). split; [done|]. split.
      * intros p [->|Hp]%elem_of_cons; [lia|auto].
      * intros [|j] p Hj Hp; simpl in Hp.
        -- injection Hp as <-. lia.
        -- eapply Hbefore; [|done]. lia.
Qed.

Section insight.
Context `{PandasRuntime}.

Lemma top_country_nil : top_country [] = Raise IndexError.
Proof.
  unfold top_country.
  pose proof (sort_values_desc_perm []) as Hp.
  apply Permutation_nil_r in Hp as ->. done.
Qed.

(** Whatever the sort does with equal counts, the country it puts first
    has the largest count. *)
Lemma top_country_some_max heat :
  heat ≠ [] → ∃ c, top_country heat = Ok c ∧ some_max heat c.
Proof.
  intros Hne. unfold top_country.
  pose proof (sort_values_desc_perm heat) as Hp.
  pose proof (sort_values_desc_sorted heat) as Hs.
  destruct (sort_values_desc heat) as [|[c n] s].
  { symmetry in Hp. by apply Permutation_nil_r in Hp. }
  exists c. split; [done|]. exists n. split.
  - rewrite <- Hp. left.
  - intros p Hp'. rewrite <- Hp in Hp'. inversion Hs as [|? ? _ Hall]; subst.
    apply elem_of_cons in Hp' as [->|Hp']; [done|].
    rewrite Forall_forall in Hall. by apply Hall.
Qed.
End insight.

Lemma heatdata_nonempty dff : dff ≠ [] → heatdata dff ≠ [].
Proof.
  destruct dff as [|r dff]; [done|]. intros _ Hnil.
  assert ((Country r, length (filter (λ r', Some (Country r') = Some (Country r)) (r :: dff)))
          ∈ heatdata (r :: dff)) as Hin.
  { unfold heatdata, Pd.size. apply list_elem_of_fmap.
    eexists (_, _). split; [|apply elem_of_groupby; split; [|done]].
    - done.
    - exists r. split; [left|done]. }
  rewrite Hnil in Hin. by apply elem_of_nil in Hin.
Qed.

(* ===================================================================== *)
(** * The empty cases *)
(* ===================================================================== *)

(** Without a row of positive casualties the callback raises at line 80,
    before any aggregate is built. *)
Lemma views_of_no_positive `{PandasRuntime} dff :
  sb_data_rows dff = [] → views_of dff = Raise IndexError.
Proof. unfold views_of. by intros ->. Qed.

Lemma update_visuals_result `{PandasRuntime} (h : heap) df F region :
  h !! df = Some F → (update_visuals df region h).1 = compute_views (df_rows F) region.
Proof.
  intros Hdf. destruct (update_visuals_exec h df F region Hdf) as (h' & -> & _). done.
Qed.

(** C1 (the code falls short of the claim).  The claim: when the filtered
    table is empty the pipeline does not fail, every aggregate is empty and
    the insight is absent.  The callback instead raises: on an empty table,
    on a region that matches no row, and run in a heap that holds the empty
    table, [pd.cut] raises IndexError on [bins[0]]; and on the empty
    geographic count the insight raises as well. *)
Theorem C1_empty_filtered_table_raises `{PandasRuntime} :
  compute_views [] None = Raise IndexError ∧
  region_filter scenario1 (Some "Nowhere") = [] ∧
  compute_views scenario1 (Some "Nowhere") = Raise IndexError ∧
  (update_visuals 0 None {[0 := frame_of []]}).1 = Raise IndexError ∧
  casualty_binner [] = Raise IndexError ∧
  heatdata [] = [] ∧ top_country [] = Raise IndexError.
Proof.
  split; [by apply views_of_no_positive|].
  split; [done|]. split; [by apply views_of_no_positive|]. split.
  - rewrite (update_visuals_result _ 0 (frame_of [])) by apply lookup_singleton_eq.
    by apply views_of_no_positive.
  - split; [apply casualty_binner_empty|]. split; [done|apply top_country_nil].
Qed.

(** C2 (the code falls short of the claim).  The claim: when every row of a
    non-empty filtered table has zero casualties, the casualty distribution
    is empty without an error and the geographic count reflects all rows.
    On the ten rows of [scenario2], all of zero casualties, the callback
    raises IndexError and returns no geographic count. *)
Theorem C2_all_zero_casualties_raises `{PandasRuntime} :
  length scenario2 = 10 ∧
  Forall (λ r, total_casualties r = 0%Z) scenario2 ∧
  total_count (heatdata scenario2) = 10 ∧
  compute_views scenario2 None = Raise IndexError ∧
  (update_visuals 0 None {[0 := frame_of scenario2]}).1 = Raise IndexError.
Proof.
  split; [done|]. split; [by apply (bool_decide_unpack _); vm_compute|].
  split; [by vm_compute|]. split; [by apply views_of_no_positive|].
  rewrite (update_visuals_result _ 0 (frame_of scenario2)) by apply lookup_singleton_eq.
  by apply views_of_no_positive.
Qed.

(* ===================================================================== *)
(** * One casualty value *)
(* ===================================================================== *)

Lemma top_country_singleton `{PandasRuntime} c n : top_country [(c, n)] = Ok c.
Proof.
  unfold top_country. pose proof (sort_values_desc_perm [(c, n)]) as Hp.
  apply Permutation_singleton_r in Hp as ->. done.
Qed.

Lemma in_bucket_lt bins k x : in_bucket bins k x → S k < length bins.
Proof. intros (lo & hi & _ & Hhi & _). by eapply lookup_lt_Some. Qed.

(** C3, counterexample.  For the single row of 3 casualties the binner
    lays out two buckets, "1" and "2–5", not one; with [observed=False] the
    casualty distribution has a row for each. *)
Lemma C3_counterexample :
  Forall (λ r, total_casualties r = 3%Z) (sb_data_rows scenario1) ∧
  casualty_binner (sb_data_rows scenario1)
    = Ok {| codes := [Some 1]; categories := ["1"; "2–5"] |} ∧
  length ["1"; "2–5"] ≠ 1 ∧
  v_sb_grouped <$> @compute_views (runtime false false) scenario1 None
    = Ok [("1", "X", 0); ("2–5", "X", 1)].
Proof.
  split; [by apply (bool_decide_unpack _); vm_compute|].
  split; [by vm_compute|]. split; [done|]. by vm_compute.
Qed.

(** C3, as amended.  When the rows of positive casualties share one value,
    below the largest int64, they all receive one and the same bucket, so
    exactly one bucket is occupied; the binner itself lays out a single
    bucket exactly when that value is 1.  For the single row of 3
    casualties in Italy and no region: the geographic count is
    [("Italy", 1)], the insight names Italy, and the only group of the
    casualty distribution with rows is "2–5" (the distribution is that
    group alone when [observed] is True, and has the empty group "1" as
    well when it is False). *)
Theorem C3_one_value_one_occupied_bucket `{PandasRuntime} :
  (∀ dff v,
     sb_data_rows dff ≠ [] →
     Forall (λ r, total_casualties r = v) (sb_data_rows dff) →
     (v < int64_max)%Z →
     ∃ cr k, casualty_binner (sb_data_rows dff) = Ok cr ∧
             k < length (categories cr) ∧
             codes cr = replicate (length (sb_data_rows dff)) (Some k) ∧
             (length (categories cr) = 1 ↔ v = 1%Z)) ∧
  (∃ V, compute_views scenario1 None = Ok V ∧
        v_heatdata V = [("Italy", 1)] ∧
        v_narration V = narration "Italy" ∧
        filter (λ g, 0 < g.2) (v_sb_grouped V) = [("2–5", "X", 1)] ∧
        v_sb_grouped V = if groupby_observed
                         then [("2–5", "X", 1)]
                         else [("1", "X", 0); ("2–5", "X", 1)]).
Proof.
  split.
  - intros dff v Hne Hall Hv. rewrite Forall_forall in Hall.
    assert (∀ r, r ∈ sb_data_rows dff → (0 < total_casualties r)%Z) as Hpos.
    { by intros r [? _]%list_elem_of_filter. }
    assert (∀ r, r ∈ sb_data_rows dff → (total_casualties r < int64_max)%Z) as Hbound.
    { intros r Hr. by rewrite (Hall r Hr). }
    destruct (casualty_binner_ok _ Hne Hpos Hbound) as (m & Hmax & Hm1 & Hm2 & ->).
    destruct (casualty_bins_spec m Hm1 Hm2)
      as (rest & e & Hb & Hs & Hlast & Hme & He & Hlen).
    destruct (casualty_labels_spec (casualty_bins (Some m))) as (_ & Hll & _).
    { rewrite Hb in *. simpl in *. lia. }
    assert (v = m) as ->.
    { destruct (series_max_spec (total_casualties <$> sb_data_rows dff))
        as (m' & Hmax' & Hin & _); [by destruct (sb_data_rows dff)|].
      assert (m' = m) as -> by congruence.
      apply list_elem_of_fmap in Hin as (r & -> & Hr). symmetry. by apply Hall. }
    assert (length (casualty_labels (casualty_bins (Some m))) = 1 ↔ m = 1%Z) as Hone.
    { split.
      - intros H1. rewrite Hll, Hb in H1. destruct rest as [|? ?]; [|simpl in H1; lia].
        rewrite Hb in Hlast. simpl in Hlast. injection Hlast as <-.
        destruct (decide (m ∈ ladder)); lia.
      - intros ->. by vm_compute. }
    rewrite Hb in Hs, Hlast.
    destruct (proj2 (cut_code_is_Some 0 (1%Z :: rest) m e Hs Hlast ltac:(done)))
      as [k Hk]; [lia|].
    exists {| codes := Pd.cut_code (casualty_bins (Some m)) 0
                         <$> (total_casualties <$> sb_data_rows dff);
              categories := casualty_labels (casualty_bins (Some m)) |}, k.
    split; [done|]. simpl. split; [|split; [|done]].
    + rewrite Hll. apply cut_code_in_bucket, in_bucket_lt in Hk; [|done..].
      rewrite Hb. lia.
    + rewrite <- list_fmap_compose. rewrite Hb.
      generalize (sb_data_rows dff), Hall. clear -Hk.
      induction l as [|r l IH]; intros Hall; [done|]. simpl. f_equal.
      * rewrite (Hall r) by left. done.
      * apply IH. intros; apply Hall. by right.
  - unfold compute_views, region_filter, views_of. simpl Py.truthy. cbv iota.
    assert (casualty_binner (sb_data_rows scenario1)
            = Ok {| codes := [Some 1]; categories := ["1"; "2–5"] |}) as ->
      by (by vm_compute).
    rewrite result_bind_Ok.
    assert (heatdata scenario1 = [("Italy", 1)]) as -> by (by vm_compute).
    cbv zeta. rewrite top_country_singleton.
    unfold sb_grouped. simpl df_casualty_range. cbv iota.
    rewrite !result_bind_Ok. eexists. split; [done|]. simpl.
    split; [done|]. split; [done|].
    destruct groupby_observed; by vm_compute.
Qed.

(** C3, witness: the single row of 3 casualties. *)
Lemma C3_witness :
  ∃ cr k, casualty_binner (sb_data_rows scenario1) = Ok cr ∧
          k < length (categories cr) ∧
          codes cr = replicate (length (sb_data_rows scenario1)) (Some k) ∧
          (length (categories cr) = 1 ↔ 3%Z = 1%Z).
Proof.
  apply (proj1 (@C3_one_value_one_occupied_bucket (runtime true false)) scenario1 3%Z).
  - by vm_compute.
  - by apply (bool_decide_unpack _); vm_compute.
  - by vm_compute.
Defined.

(* ===================================================================== *)
(** * The buckets *)
(* ===================================================================== *)

(** C5, counterexample.  For the single row of 3 casualties the edges are
    0, 1, 4: the first bucket holds 0 and the last holds 4, so the buckets
    cover more than the observed range from 1 to 3. *)
Lemma C5_counterexample :
  Pd.series_max (total_casualties <$> sb_data_rows scenario1) = Some 3%Z ∧
  casualty_bins (Some 3%Z) = [0; 1; 4]%Z ∧
  in_bucket (casualty_bins (Some 3%Z)) 0 0 ∧
  in_bucket (casualty_bins (Some 3%Z)) 1 4.
Proof.
  split; [done|]. split; [done|]. split.
  - exists 0%Z, 1%Z. split; [done|]. split; [done|]. by right.
  - exists 1%Z, 4%Z. split; [done|]. split; [done|]. left. lia.
Qed.

(** C5, as amended.  With at least one row of positive casualties, and
    every such row below the largest int64 (at the largest int64 the
    maximum plus one wraps around and [pd.cut] raises): the edges are
    strictly increasing; every value from 0 (the inclusive lowest
    edge) to the last edge lies in exactly one bucket and no other value
    lies in any, where the last edge is the maximum when the maximum is on
    the ladder and the maximum plus one otherwise, so that the observed
    range from 1 to the maximum is covered; [pd.cut] returns, and gives
    every row of positive casualties exactly one bucket, the one that holds
    its value; a row of zero casualties is not in the frame that is
    labelled. *)
Theorem C5_buckets (dff : list Incident) :
  sb_data_rows dff ≠ [] →
  Forall (λ r, (total_casualties r < int64_max)%Z) (sb_data_rows dff) →
  ∃ m e cr,
    let bins := casualty_bins (Some m) in
    Pd.series_max (total_casualties <$> sb_data_rows dff) = Some m ∧
    (∀ r, r ∈ sb_data_rows dff → (1 ≤ total_casualties r ≤ m)%Z) ∧
    StronglySorted Z.lt bins ∧
    head bins = Some 0%Z ∧ last bins = Some e ∧
    e = (if decide (m ∈ ladder) then m else m + 1)%Z ∧
    (∀ x, (∃ k, in_bucket bins k x) ↔ (0 ≤ x ≤ e)%Z) ∧
    (∀ x k k', in_bucket bins k x → in_bucket bins k' x → k = k') ∧
    casualty_binner (sb_data_rows dff) = Ok cr ∧
    categories cr = casualty_labels bins ∧
    length (categories cr) = length bins - 1 ∧
    length (codes cr) = length (sb_data_rows dff) ∧
    (∀ i r, sb_data_rows dff !! i = Some r →
       ∃ k, codes cr !! i = Some (Some k) ∧ k < length (categories cr) ∧
            in_bucket bins k (total_casualties r)) ∧
    (∀ r, r ∈ dff → (0 < total_casualties r)%Z → r ∈ sb_data_rows dff) ∧
    (∀ r, total_casualties r = 0%Z → r ∉ sb_data_rows dff).
Proof.
  intros Hne Hbound. rewrite Forall_forall in Hbound.
  assert (∀ r, r ∈ sb_data_rows dff → (0 < total_casualties r)%Z) as Hpos.
  { by intros r [? _]%list_elem_of_filter. }
  destruct (casualty_binner_ok _ Hne Hpos Hbound) as (m & Hmax & Hm1 & Hm2 & Hcut).
  destruct (casualty_bins_spec m Hm1 Hm2)
    as (rest & e & Hb & Hs & Hlast & Hme & He & Hlen).
  destruct (casualty_labels_spec (casualty_bins (Some m))) as (_ & Hll & _).
  { rewrite Hb in *. simpl in *. lia. }
  destruct (series_max_spec (total_casualties <$> sb_data_rows dff))
    as (m' & Hmax' & _ & Hle); [by destruct (sb_data_rows dff)|].
  assert (m' = m) as -> by congruence.
  assert (∀ x k, Pd.cut_code (casualty_bins (Some m)) 0 x = Some k
                 ↔ in_bucket (casualty_bins (Some m)) k x) as Hcode.
  { intros x k. rewrite Hb. apply cut_code_in_bucket; [by rewrite <- Hb|done]. }
  assert (∀ x, is_Some (Pd.cut_code (casualty_bins (Some m)) 0 x) ↔ (0 ≤ x ≤ e)%Z) as Hcov.
  { intros x. rewrite Hb. apply cut_code_is_Some; [by rewrite <- Hb|by rewrite <- Hb|done]. }
  exists m, e, {| codes := Pd.cut_code (casualty_bins (Some m)) 0
                        <$> (total_casualties <$> sb_data_rows dff);
             categories := casualty_labels (casualty_bins (Some m)) |}.
  cbv zeta. split; [done|]. split.
  { intros r Hr. split; [specialize (Hpos r Hr); lia|].
    apply Hle, list_elem_of_fmap. eauto. }
  split; [done|]. split; [by rewrite Hb|]. split; [done|]. split.
  { destruct (decide (m ∈ ladder)); done. }
  split.
  { intros x. rewrite <- Hcov. split.
    - intros [k Hk]. exists k. by apply Hcode.
    - intros [k Hk]. exists k. by apply Hcode. }
  split.
  { intros x k k' Hk Hk'. apply Hcode in Hk, Hk'. congruence. }
  split; [done|]. split; [done|]. split; [done|]. simpl. split.
  { by rewrite !length_fmap. }
  split.
  { intros i r Hi. rewrite !list_lookup_fmap, Hi. simpl.
    assert (0 ≤ total_casualties r ≤ e)%Z as Hrange.
    { pose proof (list_elem_of_lookup_2 _ _ _ Hi) as Hr.
      specialize (Hpos r Hr).
      assert (total_casualties r ≤ m)%Z by (apply Hle, list_elem_of_fmap; eauto). lia. }
    apply Hcov in Hrange as [k Hk]. exists k. rewrite Hk. split; [done|].
    apply Hcode in Hk. split; [|done]. apply in_bucket_lt in Hk. lia. }
  split.
  { intros r Hr Hp. by apply list_elem_of_filter. }
  intros r Hz [Hp _]%list_elem_of_filter. lia.
Qed.

(** C5, witness: the single row of 3 casualties. *)
Lemma C5_witness :
  ∃ m e cr,
    let bins := casualty_bins (Some m) in
    Pd.series_max (total_casualties <$> sb_data_rows scenario1) = Some m ∧
    (∀ r, r ∈ sb_data_rows scenario1 → (1 ≤ total_casualties r ≤ m)%Z) ∧
    StronglySorted Z.lt bins ∧
    head bins = Some 0%Z ∧ last bins = Some e ∧
    e = (if decide (m ∈ ladder) then m else m + 1)%Z ∧
    (∀ x, (∃ k, in_bucket bins k x) ↔ (0 ≤ x ≤ e)%Z) ∧
    (∀ x k k', in_bucket bins k x → in_bucket bins k' x → k = k') ∧
    casualty_binner (sb_data_rows scenario1) = Ok cr ∧
    categories cr = casualty_labels bins ∧
    length (categories cr) = length bins - 1 ∧
    length (codes cr) = length (sb_data_rows scenario1) ∧
    (∀ i r, sb_data_rows scenario1 !! i = Some r →
       ∃ k, codes cr !! i = Some (Some k) ∧ k < length (categories cr) ∧
            in_bucket bins k (total_casualties r)) ∧
    (∀ r, r ∈ scenario1 → (0 < total_casualties r)%Z → r ∈ sb_data_rows scenario1) ∧
    (∀ r, total_casualties r = 0%Z → r ∉ sb_data_rows scenario1).
Proof.
  apply (C5_buckets scenario1).
  - by vm_compute.
  - by apply (bool_decide_unpack _); vm_compute.
Defined.

(* ===================================================================== *)
(** * The region filter *)
(* ===================================================================== *)

Lemma region_filter_truthy table s :
  s ≠ "" → region_filter table (Some s) = filter (λ r, Region r = s) table.
Proof.
  intros Hs. unfold region_filter, Py.truthy. rewrite decide_False by done.
  apply list_filter_iff. intros r. split; [by intros [= ->]|by intros ->].
Qed.

Lemma heatdata_count dff c n :
  (c, n) ∈ heatdata dff →
  n = length (filter (λ r, Country r = c) dff) ∧ 0 < n.
Proof.
  unfold heatdata, Pd.size. intros ([k g] & [= -> ->] & Hg)%list_elem_of_fmap.
  apply elem_of_groupby in Hg as [(r & Hr & [= Hk]) ->]. simpl.
  assert (filter (λ r0, Some (Country r0) = Some k) dff
          = filter (λ r0, Country r0 = k) dff) as ->.
  { apply list_filter_iff. intros r'. split; [by intros [= ->]|by intros ->]. }
  split; [done|].
  assert (r ∈ filter (λ r0, Country r0 = k) dff) as Hin by by apply list_elem_of_filter.
  destruct (filter _ dff); [by apply elem_of_nil in Hin|simpl; lia].
Qed.

(** C6, counterexample.  With the empty string as the region, the filter
    returns the whole table, not the rows whose region is the empty
    string. *)
Lemma C6_counterexample :
  region_filter scenario1 (Some "") = scenario1 ∧
  filter (λ r, Region r = "") scenario1 = [] ∧
  region_filter scenario1 (Some "") ≠ filter (λ r, Region r = "") scenario1.
Proof. done. Qed.

(** C6, as amended.  The region filter returns the rows whose region equals
    [R] when [R] is a non-empty string, and the table unchanged when [R] is
    unset or the empty string.  The callback returns the views of the
    filtered table: two tables with the same filtered rows give the same
    output, every aggregate is computed from the filtered rows alone, and
    the count of a country in the geographic count is the number of
    filtered rows of that country. *)
Theorem C6_region_filter `{PandasRuntime} (T : list Incident) (R : option string) :
  region_filter T R =
    match R with
    | None => T
    | Some s => if decide (s = "") then T else filter (λ r, Region r = s) T
    end ∧
  (∀ r, r ∈ region_filter T R → r ∈ T) ∧
  (∀ T', region_filter T' R = region_filter T R →
         compute_views T' R = compute_views T R) ∧
  (∀ (h : heap) df F, h !! df = Some F → df_rows F = T →
     (update_visuals df R h).1 = views_of (region_filter T R)) ∧
  (∀ V, compute_views T R = Ok V →
     v_tree_grouped V = tree_grouped (region_filter T R) ∧
     v_heatdata V = heatdata (region_filter T R) ∧
     v_trend V = trend (region_filter T R) ∧
     v_yearwise V = yearwise (region_filter T R) ∧
     v_actor V = actor (region_filter T R) ∧
     (∃ cr, casualty_binner (sb_data_rows (region_filter T R)) = Ok cr ∧
            sb_grouped {| df_rows := sb_data_rows (region_filter T R);
                          df_casualty_range := Some cr |} = Ok (v_sb_grouped V)) ∧
     (∀ c n, (c, n) ∈ v_heatdata V →
        n = length (filter (λ r, Country r = c) (region_filter T R)) ∧ 0 < n)).
Proof.
  split.
  { destruct R as [s|]; [|done]. destruct (decide (s = "")) as [->|Hs]; [done|].
    by apply region_filter_truthy. }
  split.
  { unfold region_filter. destruct (Py.truthy R); [|done].
    by intros r [_ ?]%list_elem_of_filter. }
  split; [by unfold compute_views; intros T' ->|]. split.
  { intros h df F Hdf <-. by apply update_visuals_result. }
  intros V. unfold compute_views, views_of.
  destruct (casualty_binner _) as [cr|] eqn:Hcr; [|done]. rewrite result_bind_Ok.
  destruct (sb_grouped _) as [sbg|] eqn:Hsbg; [|done]. rewrite result_bind_Ok.
  cbv zeta. destruct (top_country _) as [top|]; [|done]. rewrite result_bind_Ok.
  intros [= <-]. simpl. repeat (split; [done|]). split; [by exists cr|].
  apply heatdata_count.
Qed.

(** C6, witness: rows of other regions do not change the views of region
    X, and the callback run on the single row returns those views. *)
Lemma C6_witness :
  @compute_views (runtime true false) (tied ++ scenario1) (Some "X")
    = @compute_views (runtime true false) scenario1 (Some "X") ∧
  (@update_visuals (runtime true false) 0 (Some "X") {[0 := frame_of scenario1]}).1
    = @views_of (runtime true false) (region_filter scenario1 (Some "X")).
Proof.
  split.
  - apply (proj1 (proj2 (proj2 (@C6_region_filter (runtime true false)
                                  scenario1 (Some "X")))) (tied ++ scenario1)).
    by vm_compute.
  - apply (proj1 (proj2 (proj2 (proj2 (@C6_region_filter (runtime true false)
                                          scenario1 (Some "X")))))
             {[0 := frame_of scenario1]} 0 (frame_of scenario1)).
    + by vm_compute.
    + reflexivity.
Defined.

(* ===================================================================== *)
(** * Totals of the counts *)
(* ===================================================================== *)

(** C7.  The counts of the geographic count add up to the number of
    filtered rows, and the counts of the attack taxonomy add up to the
    number of filtered rows that have both a means of attack and an attack
    context. *)
Theorem C7_counts_add_up (T : list Incident) (R : option string) :
  total_count (heatdata (region_filter T R)) = length (region_filter T R) ∧
  total_count (tree_grouped (region_filter T R)) =
    length (filter (λ r, is_Some (Means_of_attack r) ∧ is_Some (Attack_context r))
              (region_filter T R)).
Proof.
  generalize (region_filter T R) as dff. intros dff. split.
  - unfold heatdata. rewrite total_count_size. f_equal.
    induction dff as [|r dff IH]; [done|].
    rewrite filter_cons_True by done. by f_equal.
  - unfold tree_grouped. rewrite total_count_size. f_equal. unfold treedata.
    rewrite list_filter_filter. apply list_filter_iff. intros r.
    split; [by intros [_ ?]|]. intros [[m Hm] [c Hc]]. rewrite Hm, Hc. eauto.
Qed.

(* ===================================================================== *)
(** * The monthly trend *)
(* ===================================================================== *)

Lemma filter_ext_in {A} (P Q : A → Prop) `{∀ x, Decision (P x), ∀ x, Decision (Q x)}
    (l : list A) :
  (∀ x, x ∈ l → P x ↔ Q x) → filter P l = filter Q l.
Proof.
  induction l as [|x l IH]; intros Hext; [done|].
  rewrite !filter_cons. rewrite IH by (intros; apply Hext; by right).
  destruct (decide (P x)) as [HP|HP], (decide (Q x)) as [HQ|HQ]; try done.
  - by apply (Hext x ltac:(left)) in HP.
  - by apply (Hext x ltac:(left)) in HQ.
Qed.

#[local] Instance period_le_total : Total period_le.
Proof. intros p q. unfold period_le. lia. Qed.

#[local] Instance period_le_trans : Transitive period_le.
Proof. intros p q r. unfold period_le. lia. Qed.

#[local] Instance date_lt_irrefl : Irreflexive date_lt.
Proof. intros d Hd. unfold date_lt in Hd. lia. Qed.

Lemma period_le_lt p q : period_le p q → p ≠ q → period_lt p q.
Proof.
  unfold period_le, period_lt. intros Hle Hne.
  destruct (decide (p_month p = p_month q)) as [Hm|Hm]; [|lia].
  destruct Hle as [?|[Hy _]]; [by left|]. destruct p, q; simpl in *. congruence.
Qed.

Lemma group_keys_period_sorted ks :
  StronglySorted period_lt (Pd.group_keys period_le ks).
Proof.
  pose proof (group_keys_NoDup period_le ks) as Hnd.
  assert (StronglySorted period_le (Pd.group_keys period_le ks)) as Hs
    by apply (StronglySorted_merge_sort period_le).
  induction Hs as [|p l Hl IH Hp]; [constructor|].
  apply NoDup_cons in Hnd as [Hnotin Hnd]. constructor; [auto|].
  rewrite Forall_forall in Hp |- *. intros q Hq.
  apply period_le_lt; [auto|]. by intros ->.
Qed.

Lemma to_timestamp_mono p q :
  period_lt p q → date_lt (Pd.to_timestamp p) (Pd.to_timestamp q).
Proof. unfold period_lt, date_lt. simpl. lia. Qed.

Lemma in_month_period k r :
  Some (Pd.to_period_M (date r)) = Some k ↔ in_month (Pd.to_timestamp k) r.
Proof.
  unfold in_month, Pd.to_period_M. destruct k as [y m]. simpl. split.
  - by intros [= <- <-].
  - by intros [-> ->].
Qed.

Lemma trend_dates (dff : list Incident) :
  t_date <$> trend dff =
  Pd.to_timestamp <$>
    Pd.group_keys period_le (omap (λ r : Incident, Some (Pd.to_period_M (date r))) dff).
Proof.
  unfold trend. rewrite <- list_fmap_compose.
  rewrite <- (groupby_keys period_le (λ r, Some (Pd.to_period_M (date r))) dff).
  by rewrite <- list_fmap_compose.
Qed.

(** An int64 sum holds the sum of the integers, wrapped around. *)
Lemma int64_wrap_int64_of z : int64_of z (Pd.int64_wrap z).
Proof.
  unfold int64_of, Pd.int64_wrap, int64_min, int64_max.
  pose proof (Z.mod_pos_bound (z - -9223372036854775808) 18446744073709551616
                ltac:(lia)) as Hb.
  split; [lia|].
  exists (- ((z - -9223372036854775808) / 18446744073709551616))%Z.
  pose proof (Z.div_mod (z - -9223372036854775808) 18446744073709551616
                ltac:(lia)). lia.
Qed.

Lemma int64_of_exact s t :
  int64_of s t → (int64_min ≤ s ≤ int64_max)%Z → t = s.
Proof.
  unfold int64_of, int64_min, int64_max. intros [Ht [k Hk]] Hs.
  assert (k = 0)%Z by lia. lia.
Qed.

Lemma series_sum_sum_of {A} (f : A → Z) (l : list A) :
  Pd.series_sum (f <$> l) = Pd.int64_wrap (sum_of f l).
Proof.
  unfold Pd.series_sum. f_equal.
  induction l as [|x l IH]; [done|]. cbn. by rewrite IH.
Qed.

Lemma series_sum_int64_of {A} (f : A → Z) (l : list A) :
  int64_of (sum_of f l) (Pd.series_sum (f <$> l)).
Proof. rewrite series_sum_sum_of. apply int64_wrap_int64_of. Qed.

(** C8, counterexamples.  A month whose only row has no incident id is
    listed with 0 incidents, although it has one row; and a month whose
    two rows have 2^62 casualties each is listed with the smallest int64,
    not with their sum 2^63. *)
Lemma C8_counterexample :
  trend [no_id] =
    [{| t_date := {| d_year := 2020; d_month := 3; d_day := 1 |};
        t_Incident_ID := 0; t_total_casualties := 2 |}] ∧
  length (filter (in_month {| d_year := 2020; d_month := 3; d_day := 1 |}) [no_id]) = 1 ∧
  trend heavy_month =
    [{| t_date := {| d_year := 2020; d_month := 3; d_day := 1 |};
        t_Incident_ID := 2; t_total_casualties := (-9223372036854775808)%Z |}] ∧
  sum_of total_casualties
    (filter (in_month {| d_year := 2020; d_month := 3; d_day := 1 |}) heavy_month)
  = 9223372036854775808%Z.
Proof. repeat split; by vm_compute. Qed.

(** C8, as amended.  The monthly trend has one row per calendar month that
    has a row, whatever the day: its date is the first day of the month;
    its count is the number of rows of the month that carry an incident
    id, which is the number of rows of the month when every row carries
    one; its sum is the int64 that holds the sum of the casualties of the
    rows of the month, which is that sum when it is within the range of
    int64.  The rows are in chronological order, strictly, so no month
    appears twice. *)
Theorem C8_monthly_trend (dff : list Incident) :
  StronglySorted date_lt (t_date <$> trend dff) ∧
  NoDup (t_date <$> trend dff) ∧
  (∀ row, row ∈ trend dff →
     d_day (t_date row) = 1%Z ∧
     (∃ r, r ∈ dff ∧ in_month (t_date row) r) ∧
     t_Incident_ID row =
       length (filter (λ r, is_Some (Incident_ID r) ∧ in_month (t_date row) r) dff) ∧
     int64_of (sum_of total_casualties (filter (in_month (t_date row)) dff))
       (t_total_casualties row) ∧
     ((int64_min ≤ sum_of total_casualties (filter (in_month (t_date row)) dff)
       ≤ int64_max)%Z →
      t_total_casualties row =
        sum_of total_casualties (filter (in_month (t_date row)) dff))) ∧
  (∀ r, r ∈ dff → ∃ row, row ∈ trend dff ∧ in_month (t_date row) r) ∧
  ((∀ r, r ∈ dff → is_Some (Incident_ID r)) →
   ∀ row, row ∈ trend dff →
     t_Incident_ID row = length (filter (in_month (t_date row)) dff)).
Proof.
  assert (StronglySorted date_lt (t_date <$> trend dff)) as Hs.
  { rewrite trend_dates. apply (StronglySorted_fmap _ period_lt date_lt).
    - intros p q. apply to_timestamp_mono.
    - apply group_keys_period_sorted. }
  assert (∀ row, row ∈ trend dff →
     d_day (t_date row) = 1%Z ∧
     (∃ r, r ∈ dff ∧ in_month (t_date row) r) ∧
     t_Incident_ID row =
       length (filter (λ r, is_Some (Incident_ID r) ∧ in_month (t_date row) r) dff) ∧
     int64_of (sum_of total_casualties (filter (in_month (t_date row)) dff))
       (t_total_casualties row)) as Hrows.
  { intros row ([k g] & -> & Hg)%list_elem_of_fmap. simpl.
    apply elem_of_groupby in Hg as [(r & Hr & Hk) ->].
    assert (filter (λ r0, Some (Pd.to_period_M (date r0)) = Some k) dff
            = filter (in_month (Pd.to_timestamp k)) dff) as ->.
    { apply list_filter_iff. intros r'. apply in_month_period. }
    split; [done|]. split; [exists r; split; [done|by apply in_month_period]|].
    split; [|apply series_sum_int64_of].
    unfold Pd.count_notna. by rewrite list_filter_filter. }
  split; [done|]. split; [by apply (StronglySorted_NoDup date_lt)|].
  split; [|split].
  - intros row Hrow. destruct (Hrows row Hrow) as (Hd & Hr & Hc & Hsum).
    repeat (split; [done|]). by apply int64_of_exact.
  - intros r Hr. eexists {| t_date := Pd.to_timestamp (Pd.to_period_M (date r)) |}.
    split; [|done]. unfold trend. apply list_elem_of_fmap.
    eexists (_, _). split; [done|]. apply elem_of_groupby. split; [|done]. eauto.
  - intros Hid row Hrow. destruct (Hrows row Hrow) as (_ & _ & -> & _).
    f_equal. apply filter_ext_in. intros r Hr. specialize (Hid r Hr). tauto.
Qed.

(** C8, witness: in the two-row table every row carries an id, and the
    row of March 2020 counts the one row of its month and sums its 2
    casualties. *)
Lemma C8_witness :
  let row := {| t_date := {| d_year := 2020; d_month := 3; d_day := 1 |};
                t_Incident_ID := 1; t_total_casualties := 2 |} in
  t_Incident_ID row = length (filter (in_month (t_date row)) tied) ∧
  t_total_casualties row = sum_of total_casualties (filter (in_month (t_date row)) tied).
Proof.
  intros row.
  assert (row ∈ trend tied) as Hrow.
  { assert (∃ l, trend tied = row :: l) as [l ->] by (eexists; by vm_compute).
    left. }
  split.
  - apply (proj2 (proj2 (proj2 (proj2 (C8_monthly_trend tied))))); [|done].
    apply Forall_forall, (bool_decide_unpack _). by vm_compute.
  - destruct (proj1 (proj2 (proj2 (C8_monthly_trend tied))) row Hrow)
      as (_ & _ & _ & _ & Hsum).
    apply Hsum. by split; vm_compute.
Defined.

(* ===================================================================== *)
(** * Purity *)
(* ===================================================================== *)

(** C9.  Run in any heap that holds the table at [df], the callback returns
    a value that depends on the rows of the table and on the region alone;
    every object that existed before the call, the table among them, is
    unchanged after it, also when the call raises; and a second call on the
    same table and region returns what the first returned. *)
Theorem C9_deterministic_and_leaves_the_table `{PandasRuntime}
    (h : heap) (df : loc) (F : DataFrame) (region : option string) :
  h !! df = Some F →
  (update_visuals df region h).1 = compute_views (df_rows F) region ∧
  (∀ l f, h !! l = Some f → (update_visuals df region h).2 !! l = Some f) ∧
  (update_visuals df region h).2 !! df = Some F ∧
  (update_visuals df region (update_visuals df region h).2).1
  = (update_visuals df region h).1.
Proof.
  intros Hdf. split; [by apply update_visuals_result|].
  destruct (update_visuals_exec h df F region Hdf) as (h' & E & Hsub).
  split; [|split].
  - intros l f Hl. rewrite E. simpl. by eapply lookup_weaken.
  - rewrite E. simpl. by eapply lookup_weaken.
  - by eapply update_visuals_again.
Qed.

(** C9, witness: the callback run in a heap that holds the single row. *)
Lemma C9_witness :
  (@update_visuals (runtime false false) 0 (Some "X") {[0 := frame_of scenario1]}).1
  = @compute_views (runtime false false) scenario1 (Some "X") ∧
  (@update_visuals (runtime false false) 0 (Some "X") {[0 := frame_of scenario1]}).2 !! 0
  = Some (frame_of scenario1).
Proof.
  pose proof (@C9_deterministic_and_leaves_the_table (runtime false false)
                {[0 := frame_of scenario1]} 0 (frame_of scenario1) (Some "X")) as Hrun.
  split; apply Hrun; by vm_compute.
Defined.

(* ===================================================================== *)
(** * Falsy selections *)
(* ===================================================================== *)

(** C10.  The falsy values of the selection are None and the empty string;
    with the empty string the callback is the callback with None: no filter
    is applied and the output is that of the whole table.  Every other
    string filters the table by region. *)
Theorem C10_empty_string_is_no_selection `{PandasRuntime} :
  (∀ v, Py.truthy v = false ↔ v = None ∨ v = Some "") ∧
  (∀ df, update_visuals df (Some "") = update_visuals df None) ∧
  (∀ T, region_filter T (Some "") = T ∧
        compute_views T (Some "") = compute_views T None ∧
        compute_views T None = views_of T) ∧
  (∀ T s, s ≠ "" → region_filter T (Some s) = filter (λ r, Region r = s) T).
Proof.
  split; [|split; [done|split; [done|]]].
  - intros [s|]; simpl; [|by split; [left|]].
    destruct (decide (s = "")) as [->|Hs]; split; try done.
    + by right.
    + intros [?|[= ?]]; done.
  - intros T s. apply region_filter_truthy.
Qed.

(** C10, witness: the region X. *)
Lemma C10_witness :
  region_filter scenario1 (Some "X") = filter (λ r, Region r = "X") scenario1.
Proof.
  apply (proj2 (proj2 (proj2 (@C10_empty_string_is_no_selection (runtime false false))))).
  by vm_compute.
Defined.

(* ===================================================================== *)
(** * The order of strings *)
(* ===================================================================== *)

Lemma str_le_alt s t : str_le s t ↔ s = t ∨ String_as_OT.lt s t.
Proof.
  unfold str_le, String.leb. rewrite <- String_as_OT.cmp_lt. unfold String_as_OT.cmp.
  destruct (String.compare s t) eqn:Hc.
  - apply String.compare_eq_iff in Hc. naive_solver.
  - naive_solver.
  - split; [done|]. intros [->|?]; [|done].
    pose proof (String.compare_antisym t t) as Ha.
    destruct (String.compare t t); simpl in *; discriminate.
Qed.

#[global] Instance str_le_total : Total str_le.
Proof. intros s t. apply String.leb_total. Qed.

#[global] Instance str_le_trans : Transitive str_le.
Proof.
  intros s t u. rewrite !str_le_alt. intros [->|Hst] [->|Htu]; auto.
  right. by eapply String_as_OT.lt_trans.
Qed.

#[global] Instance str_le_antisym : AntiSymm (=) str_le.
Proof. intros s t. apply String.leb_antisym. Qed.

#[global] Instance str_lt_irrefl : Irreflexive str_lt.
Proof. by intros s [_ ?]. Qed.

(** The keys of a group-by over a total order are strictly ascending. *)
Lemma group_keys_strictly_sorted {K} `{EqDecision K} (le : relation K)
    `{!RelDecision le, !Total le, !Transitive le} (ks : list K) :
  StronglySorted (λ a b, le a b ∧ a ≠ b) (Pd.group_keys le ks).
Proof.
  pose proof (group_keys_NoDup le ks) as Hnd.
  assert (StronglySorted le (Pd.group_keys le ks)) as Hs
    by apply (StronglySorted_merge_sort le).
  induction Hs as [|p l Hl IH Hp]; [constructor|].
  apply NoDup_cons in Hnd as [Hnotin Hnd]. constructor; [auto|].
  rewrite Forall_forall in Hp |- *. intros q Hq.
  split; [auto|]. by intros ->.
Qed.

(* ===================================================================== *)
(** * When the callback returns *)
(* ===================================================================== *)

Lemma sb_grouped_Ok `{PandasRuntime} rows cr :
  ∃ g, sb_grouped {| df_rows := rows; df_casualty_range := Some cr |} = Ok g.
Proof. unfold sb_grouped. simpl. eauto. Qed.

Lemma sb_data_rows_positive dff r :
  r ∈ sb_data_rows dff ↔ (0 < total_casualties r)%Z ∧ r ∈ dff.
Proof.
  unfold sb_data_rows.
  apply (list_elem_of_filter (λ r, (0 < total_casualties r)%Z)).
Qed.

(** The frames that the callback hands to plotly are all computed exactly
    when the frame that is labelled has a row and every row of it is below
    the largest int64. *)
Lemma views_of_Ok_iff `{PandasRuntime} dff :
  (∃ V, views_of dff = Ok V) ↔
  sb_data_rows dff ≠ [] ∧
  ∀ r, r ∈ sb_data_rows dff → (total_casualties r < int64_max)%Z.
Proof.
  split.
  - intros [V HV]. unfold views_of in HV.
    destruct (casualty_binner (sb_data_rows dff)) as [cr|e] eqn:Hcr; [|done].
    by apply casualty_binner_Ok_inv in Hcr.
  - intros [Hne Hbound]. unfold views_of.
    destruct (casualty_binner_ok (sb_data_rows dff) Hne) as (m & _ & _ & _ & ->);
      [|done|].
    { intros r. rewrite sb_data_rows_positive. tauto. }
    rewrite result_bind_Ok.
    destruct (sb_grouped_Ok (sb_data_rows dff)
      {| codes := Pd.cut_code (casualty_bins (Some m)) 0 <$>
                    (total_casualties <$> sb_data_rows dff);
         categories := casualty_labels (casualty_bins (Some m)) |}) as [g ->].
    rewrite result_bind_Ok. cbv zeta.
    destruct (top_country_some_max (heatdata dff)) as (c & -> & _).
    { apply heatdata_nonempty. intros Hnil. apply Hne. unfold sb_data_rows.
      by rewrite Hnil. }
    rewrite result_bind_Ok. eauto.
Qed.

Lemma sb_data_rows_nonempty dff :
  sb_data_rows dff ≠ [] ↔ ∃ r, r ∈ dff ∧ (0 < total_casualties r)%Z.
Proof.
  split.
  - destruct (sb_data_rows dff) as [|r l] eqn:Hl; [done|].
    intros _. exists r.
    assert (r ∈ sb_data_rows dff) as Hin by (rewrite Hl; left).
    apply sb_data_rows_positive in Hin. tauto.
  - intros (r & Hr & Hp) Hnil.
    assert (r ∈ sb_data_rows dff) as Hin by by apply sb_data_rows_positive.
    rewrite Hnil in Hin. by apply elem_of_nil in Hin.
Qed.

(** X1.  When no row of the filtered table has positive casualties the
    callback raises IndexError, and when a row of it is at the largest
    int64 it raises ValueError, both before any figure is drawn.  Whenever
    the frames that the callback hands to plotly are all computed, some row
    of the filtered table has positive casualties and every row is below
    the largest int64.  Run in a heap, the callback gives the same
    result. *)
Theorem X1_raises_without_a_positive_row `{PandasRuntime}
    (T : list Incident) (R : option string) :
  ((¬ ∃ r, r ∈ region_filter T R ∧ (0 < total_casualties r)%Z) →
   compute_views T R = Raise IndexError) ∧
  ((∃ r, r ∈ region_filter T R ∧ (int64_max ≤ total_casualties r)%Z) →
   compute_views T R = Raise ValueError) ∧
  (∀ V, compute_views T R = Ok V →
     (∃ r, r ∈ region_filter T R ∧ (0 < total_casualties r)%Z) ∧
     (∀ r, r ∈ region_filter T R → (total_casualties r < int64_max)%Z)) ∧
  (∀ (h : heap) df, h !! df = Some (frame_of T) →
     (update_visuals df R h).1 = compute_views T R).
Proof.
  unfold compute_views. split; [|split; [|split]].
  - intros Hno. apply views_of_no_positive.
    destruct (decide (sb_data_rows (region_filter T R) = [])) as [|Hne]; [done|].
    exfalso. by apply Hno, sb_data_rows_nonempty.
  - intros (r & Hr & Hbig). unfold views_of.
    rewrite casualty_binner_overflow; [done|]. exists r. split; [|done].
    apply sb_data_rows_positive. unfold int64_max in Hbig. split; [lia|done].
  - intros V HV.
    destruct (proj1 (views_of_Ok_iff (region_filter T R))) as [Hne Hbound]; [eauto|].
    split; [by apply sb_data_rows_nonempty|]. intros r Hr.
    destruct (decide (0 < total_casualties r)%Z) as [Hp|Hp].
    + by apply Hbound, sb_data_rows_positive.
    + unfold int64_max. lia.
  - intros h df Hdf. by rewrite (update_visuals_result h df (frame_of T)).
Qed.

(** X1, witness: the region Europe has no row in the two-row table, and
    a row of 2^63 - 1 casualties makes [pd.cut] raise. *)
Lemma X1_witness :
  @compute_views (runtime false false) tied (Some "Europe") = Raise IndexError ∧
  @compute_views (runtime false false)
    [incident 1 2020 3 14 "Iraq" "Asia" 9223372036854775807] None = Raise ValueError.
Proof.
  split.
  - apply (proj1 (@X1_raises_without_a_positive_row (runtime false false)
                    tied (Some "Europe"))).
    intros (r & Hr & _). vm_compute in Hr. by apply elem_of_nil in Hr.
  - apply (proj1 (proj2 (@X1_raises_without_a_positive_row (runtime false false)
                           [incident 1 2020 3 14 "Iraq" "Asia" 9223372036854775807]
                           None))).
    eexists. split; [left|]. by vm_compute.
Defined.

(* ===================================================================== *)
(** * Selections *)
(* ===================================================================== *)

Lemma filter_idemp {A} (P : A → Prop) `{∀ x, Decision (P x)} (l : list A) :
  filter P (filter P l) = filter P l.
Proof.
  rewrite list_filter_filter. apply list_filter_iff. tauto.
Qed.

(** X2.  Filtering twice by the same region is filtering once, and
    filtering by two different non-empty regions in turn leaves no row. *)
Theorem X2_region_filter_composes (T : list Incident) :
  (∀ R, region_filter (region_filter T R) R = region_filter T R) ∧
  (∀ s s', s ≠ "" → s' ≠ "" → s ≠ s' →
     region_filter (region_filter T (Some s)) (Some s') = []) ∧
  (∀ R R', region_filter (region_filter T R) R'
           = region_filter (region_filter T R') R).
Proof.
  split; [|split].
  - intros R. unfold region_filter. destruct (Py.truthy R); [|done].
    apply filter_idemp.
  - intros s s' Hs Hs' Hne. rewrite !region_filter_truthy by done.
    apply filter_none, Forall_forall.
    intros r [Hr _]%list_elem_of_filter. congruence.
  - intros R R'. unfold region_filter.
    destruct (Py.truthy R), (Py.truthy R'); try done.
    rewrite !list_filter_filter. apply list_filter_iff. tauto.
Qed.

(** X2, witness: Asia then Africa on the two-row table. *)
Lemma X2_witness :
  region_filter (region_filter tied (Some "Asia")) (Some "Africa") = [].
Proof.
  apply (proj1 (proj2 (X2_region_filter_composes tied)) "Asia" "Africa");
    by vm_compute.
Defined.

(* ===================================================================== *)
(** * The dropdown *)
(* ===================================================================== *)

Lemma region_options_elem table o :
  o ∈ region_options table ↔ ∃ r, r ∈ table ∧ Region r = o.
Proof.
  unfold region_options. rewrite merge_sort_Permutation, elem_of_remove_dups.
  rewrite list_elem_of_fmap. split.
  - intros (r & -> & Hr). eauto.
  - intros (r & Hr & <-). eauto.
Qed.

(** X3.  The values offered by the dropdown are the regions of the table,
    each once, in strictly ascending order.  Selecting one of them never
    gives an empty filtered table or an empty geographic count; the
    callback still raises IndexError when no row that passes the filter
    has positive casualties. *)
Theorem X3_dropdown_options `{PandasRuntime} (table : list Incident) :
  StronglySorted str_lt (region_options table) ∧
  NoDup (region_options table) ∧
  (∀ o, o ∈ region_options table ↔ ∃ r, r ∈ table ∧ Region r = o) ∧
  (∀ o, o ∈ region_options table →
     region_filter table (Some o) ≠ [] ∧
     heatdata (region_filter table (Some o)) ≠ [] ∧
     (o ≠ "" → ∀ r, r ∈ region_filter table (Some o) ↔ r ∈ table ∧ Region r = o) ∧
     ((∀ r, r ∈ region_filter table (Some o) → (total_casualties r ≤ 0)%Z) →
      compute_views table (Some o) = Raise IndexError)).
Proof.
  split; [apply (group_keys_strictly_sorted str_le)|].
  split; [apply (group_keys_NoDup str_le)|].
  split; [apply region_options_elem|].
  intros o (r & Hr & Ho)%region_options_elem.
  assert (region_filter table (Some o) ≠ []) as Hne.
  { destruct (decide (o = "")) as [->|Hs].
    - unfold region_filter. simpl. intros ->. by apply elem_of_nil in Hr.
    - rewrite region_filter_truthy by done. intros Hnil.
      assert (r ∈ filter (λ r, Region r = o) table) as Hin
        by by apply list_elem_of_filter.
      rewrite Hnil in Hin. by apply elem_of_nil in Hin. }
  split; [done|]. split; [by apply heatdata_nonempty|]. split.
  - intros Hs r'. rewrite region_filter_truthy by done.
    rewrite list_elem_of_filter. tauto.
  - intros Hzero. apply views_of_no_positive.
    destruct (decide (sb_data_rows (region_filter table (Some o)) = []))
      as [|Hpos]; [done|].
    apply sb_data_rows_nonempty in Hpos as (r' & Hr' & Hp).
    specialize (Hzero r' Hr'). lia.
Qed.

(** X3, witness: the option Africa of the two-row table. *)
Lemma X3_witness :
  region_filter tied (Some "Africa") ≠ [] ∧
  heatdata (region_filter tied (Some "Africa")) ≠ [] ∧
  ("Africa" ≠ "" →
   ∀ r, r ∈ region_filter tied (Some "Africa") ↔ r ∈ tied ∧ Region r = "Africa") ∧
  ((∀ r, r ∈ region_filter tied (Some "Africa") → (total_casualties r ≤ 0)%Z) →
   @compute_views (runtime false false) tied (Some "Africa") = Raise IndexError).
Proof.
  apply (proj2 (proj2 (proj2 (@X3_dropdown_options (runtime false false) tied)))).
  by apply (bool_decide_unpack _); vm_compute.
Defined.

(* ===================================================================== *)
(** * The loader *)
(* ===================================================================== *)

Lemma filter_fmap_comm {A B} (f : A → B) (P : B → Prop) `{∀ y, Decision (P y)}
    (l : list A) :
  filter P (f <$> l) = f <$> filter (λ x, P (f x)) l.
Proof.
  induction l as [|x l IH]; [done|]. rewrite fmap_cons, !filter_cons.
  destruct (decide (P (f x))); by rewrite IH.
Qed.

(** X4.  After loading, the rows whose region was missing are the rows of
    the region Unknown, together with the rows that name that region: the
    selection Unknown shows exactly these, in table order, every other
    non-empty selection shows exactly the rows that name it, and Unknown is
    offered by the dropdown exactly when there is such a row. *)
Theorem X4_missing_region_is_Unknown (raw : list RawIncident) :
  region_filter (load_data raw) (Some "Unknown") =
    load_row <$> filter (λ r, raw_Region r = None ∨ raw_Region r = Some "Unknown") raw ∧
  (∀ s, s ≠ "" → s ≠ "Unknown" →
     region_filter (load_data raw) (Some s) =
       load_row <$> filter (λ r, raw_Region r = Some s) raw) ∧
  ("Unknown" ∈ region_options (load_data raw) ↔
   ∃ r, r ∈ raw ∧ (raw_Region r = None ∨ raw_Region r = Some "Unknown")) ∧
  region_filter (load_data raw) None = load_data raw ∧
  length (load_data raw) = length raw.
Proof.
  split; [|split; [|split; [|split]]].
  - rewrite region_filter_truthy by done. unfold load_data.
    rewrite filter_fmap_comm. f_equal. apply list_filter_iff. intros r. simpl.
    destruct (raw_Region r) as [s|]; simpl; intuition congruence.
  - intros s Hs Hu. rewrite region_filter_truthy by done. unfold load_data.
    rewrite filter_fmap_comm. f_equal. apply list_filter_iff. intros r. simpl.
    destruct (raw_Region r) as [s'|]; simpl; intuition congruence.
  - rewrite region_options_elem. unfold load_data. split.
    + intros (r & (r0 & -> & Hr0)%list_elem_of_fmap & Hreg). exists r0.
      split; [done|]. simpl in Hreg. destruct (raw_Region r0); simpl in *; intuition congruence.
    + intros (r0 & Hr0 & Hreg). exists (load_row r0).
      split; [by apply list_elem_of_fmap_2|]. simpl.
      destruct Hreg as [->| ->]; done.
  - done.
  - apply length_fmap.
Qed.

(** X4, witness: the selection Asia on a table of one row of Asia and one
    row of no region. *)
Lemma X4_witness :
  let raw :=
    [{| raw_Incident_ID := Some 1%Z;
        raw_date := {| d_year := 2020; d_month := 1; d_day := 5 |};
        raw_Country := "Iraq"; raw_Region := Some "Asia";
        raw_Means_of_attack := None; raw_Attack_context := None;
        raw_Actor_type := "Unknown"; raw_total_casualties := 2%Z;
        raw_Total_affected := 2%Z |};
     {| raw_Incident_ID := Some 2%Z;
        raw_date := {| d_year := 2020; d_month := 2; d_day := 9 |};
        raw_Country := "Mali"; raw_Region := None;
        raw_Means_of_attack := None; raw_Attack_context := None;
        raw_Actor_type := "Unknown"; raw_total_casualties := 0%Z;
        raw_Total_affected := 1%Z |}] in
  region_filter (load_data raw) (Some "Asia") =
    load_row <$> filter (λ r, raw_Region r = Some "Asia") raw.
Proof.
  intros raw.
  apply (proj1 (proj2 (X4_missing_region_is_Unknown raw)) "Asia"); by vm_compute.
Defined.

(* ===================================================================== *)
(** * Buckets and the full ladder *)
(* ===================================================================== *)

(** Cutting the ladder at the maximum and closing it does not move the
    values up to the maximum. *)
Lemma searchsorted_left_casualty_bins m x :
  (x ≤ m)%Z → (m < int64_max)%Z →
  Pd.searchsorted_left (casualty_bins (Some m)) x = Pd.searchsorted_left ladder x.
Proof.
  intros Hx Hm. unfold Pd.searchsorted_left, casualty_bins.
  assert (int64_succ m = (m + 1)%Z) as ->
    by (unfold int64_succ; by rewrite decide_True).
  set (b1 := filter (λ b, Py.le_nan b (Some m)) ladder).
  assert (filter (λ b, (b < x)%Z) b1 = filter (λ b, (b < x)%Z) ladder) as Hb1.
  { unfold b1. rewrite list_filter_filter. apply list_filter_iff.
    intros b. simpl. lia. }
  destruct (last b1) as [b|]; [|by rewrite Hb1].
  destruct (decide (b < m)%Z); [|by rewrite Hb1].
  rewrite filter_app, Hb1, filter_cons_False by lia. by rewrite app_nil_r.
Qed.

Lemma cut_code_ladder m x :
  (1 ≤ x ≤ m)%Z → (m < int64_max)%Z →
  Pd.cut_code (casualty_bins (Some m)) 0 x = Some (ladder_code x).
Proof.
  intros Hx Hm.
  destruct (casualty_bins_spec m ltac:(lia) Hm)
    as (rest & e & Hb & Hs & Hlast & Hme & _ & _).
  assert (is_Some (Pd.cut_code (casualty_bins (Some m)) 0 x)) as [k Hk].
  { rewrite Hb in *. apply (cut_code_is_Some 0 (1%Z :: rest) x e); [done..|lia]. }
  rewrite Hk. unfold Pd.cut_code in Hk.
  destruct (decide (x = 0%Z)) as [|_]; [lia|].
  destruct (decide _); [done|]. injection Hk as <-.
  by rewrite searchsorted_left_casualty_bins by (done || lia).
Qed.

Lemma ladder_code_bucket x :
  (1 ≤ x)%Z → ladder_code x < 10 ∧ in_ladder_bucket (ladder_code x) x.
Proof.
  intros Hx. unfold ladder_code, in_ladder_bucket.
  pose proof (λ i y, searchsorted_left_spec ladder x i y ladder_sorted) as Hsp.
  pose proof (searchsorted_left_le ladder x) as Hle.
  change (length ladder) with 10 in Hle.
  set (n := Pd.searchsorted_left ladder x) in *.
  assert (0 < n) as Hn by (apply (Hsp 0 0%Z eq_refl); lia).
  split; [lia|].
  destruct (lookup_lt_is_Some_2 ladder (n - 1)) as [lo Hlo];
    [change (length ladder) with 10; lia|].
  rewrite Hlo. replace (S (n - 1)) with n by lia.
  assert (lo < x)%Z as Hlox by (apply (Hsp _ _ Hlo); lia).
  destruct (ladder !! n) as [hi|] eqn:Hhi; [|done].
  split; [done|]. pose proof (Hsp _ _ Hhi). lia.
Qed.

Lemma ladder_label_all_labels k : k < 10 → ladder_label k = all_labels !! k.
Proof. intros Hk. do 10 (destruct k as [|k]; [by vm_compute|]). lia. Qed.

(** The column that the binner returns for the rows of positive
    casualties of a filtered table. *)
Lemma casualty_binner_codes (dff : list Incident) cr i r :
  casualty_binner (sb_data_rows dff) = Ok cr →
  sb_data_rows dff !! i = Some r →
  codes cr !! i = Some (Some (ladder_code (total_casualties r))) ∧
  categories cr !! ladder_code (total_casualties r)
    = all_labels !! ladder_code (total_casualties r) ∧
  ladder_code (total_casualties r) < length (categories cr).
Proof.
  intros Hcr Hi.
  assert (sb_data_rows dff ≠ []) as Hne by (by intros Hnil; rewrite Hnil in Hi).
  assert (∀ r, r ∈ sb_data_rows dff → (0 < total_casualties r)%Z) as Hpos.
  { intros r'. rewrite sb_data_rows_positive. tauto. }
  destruct (casualty_binner_Ok_inv _ _ Hcr) as [_ Hbound].
  destruct (casualty_binner_ok _ Hne Hpos Hbound) as (m & Hmax & Hm1 & Hm2 & Hcut).
  rewrite Hcut in Hcr. injection Hcr as <-. simpl.
  destruct (series_max_spec (total_casualties <$> sb_data_rows dff))
    as (m' & Hmax' & _ & Hle); [by destruct (sb_data_rows dff)|].
  assert (m' = m) as -> by congruence.
  pose proof (list_elem_of_lookup_2 _ _ _ Hi) as Hr.
  assert (1 ≤ total_casualties r ≤ m)%Z as Hrange.
  { specialize (Hpos r Hr). split; [lia|]. apply Hle, list_elem_of_fmap. eauto. }
  pose proof (cut_code_ladder m _ Hrange Hm2) as Hcode.
  destruct (casualty_bins_spec m Hm1 Hm2)
    as (rest & e & Hb & Hs & Hlast & _ & _ & Hlen).
  destruct (casualty_labels_spec (casualty_bins (Some m))) as (Hlab & Hll & _).
  { rewrite Hb in *. simpl in *. lia. }
  assert (ladder_code (total_casualties r) < length (casualty_bins (Some m)) - 1) as Hk.
  { rewrite Hb in Hcode, Hs.
    apply cut_code_in_bucket, in_bucket_lt in Hcode; [|done..].
    rewrite Hb. lia. }
  split; [by rewrite !list_lookup_fmap, Hi; simpl; rewrite Hcode|].
  split; [|lia]. rewrite Hlab. by apply lookup_take_lt.
Qed.

(** X5.  The bucket and the label of a row depend on its casualties alone:
    a row that passes two selections, or stands in two tables, has the same
    label in both, the label of its bucket on the full ladder. *)
Theorem X5_label_depends_on_casualties_only
    (T T' : list Incident) (R R' : option string) cr cr' i j r :
  casualty_binner (sb_data_rows (region_filter T R)) = Ok cr →
  casualty_binner (sb_data_rows (region_filter T' R')) = Ok cr' →
  sb_data_rows (region_filter T R) !! i = Some r →
  sb_data_rows (region_filter T' R') !! j = Some r →
  codes cr !! i = Some (Some (ladder_code (total_casualties r))) ∧
  codes cr' !! j = codes cr !! i ∧
  label_of cr' (ladder_code (total_casualties r))
    = label_of cr (ladder_code (total_casualties r)) ∧
  label_of cr (ladder_code (total_casualties r))
    = default "" (all_labels !! ladder_code (total_casualties r)).
Proof.
  intros Hcr Hcr' Hi Hj.
  destruct (casualty_binner_codes _ _ _ _ Hcr Hi) as (Hc & Hl & _).
  destruct (casualty_binner_codes _ _ _ _ Hcr' Hj) as (Hc' & Hl' & _).
  unfold label_of. rewrite Hl, Hl', Hc, Hc'. done.
Qed.

(** X5, witness: the row of Iraq, with no selection and with the
    selection Asia. *)
Lemma X5_witness :
  let r := incident 1 2020 3 14 "Iraq" "Asia" 2 in
  let cr := {| codes := [Some 1; Some 0]; categories := ["1"; "2–5"] |} in
  let cr' := {| codes := [Some 1]; categories := ["1"; "2–5"] |} in
  codes cr !! 0 = Some (Some (ladder_code (total_casualties r))) ∧
  codes cr' !! 0 = codes cr !! 0 ∧
  label_of cr' (ladder_code (total_casualties r))
    = label_of cr (ladder_code (total_casualties r)) ∧
  label_of cr (ladder_code (total_casualties r))
    = default "" (all_labels !! ladder_code (total_casualties r)).
Proof.
  intros r cr cr'.
  apply (X5_label_depends_on_casualties_only tied tied None (Some "Asia") cr cr' 0 0 r);
    by vm_compute.
Defined.

(** X6.  The label of a row names the range of the ladder that holds its
    casualties: a row labelled "2–5" has 2 to 5 casualties, and a row of
    more than 1000 casualties is labelled "1000+".  The ten labels of the
    source are the ten ranges of its ladder. *)
Theorem X6_label_names_the_range (dff : list Incident) cr i r k :
  casualty_binner (sb_data_rows dff) = Ok cr →
  sb_data_rows dff !! i = Some r →
  codes cr !! i = Some (Some k) →
  in_ladder_bucket k (total_casualties r) ∧
  ladder_label k = Some (label_of cr k) ∧
  ((1000 < total_casualties r)%Z → label_of cr k = "1000+") ∧
  ladder_label <$> seq 0 10 = Some <$> all_labels.
Proof.
  intros Hcr Hi Hk.
  destruct (casualty_binner_codes _ _ _ _ Hcr Hi) as (Hc & Hl & Hlt).
  assert (k = ladder_code (total_casualties r)) as -> by congruence.
  assert (1 ≤ total_casualties r)%Z as Hpos.
  { apply list_elem_of_lookup_2, sb_data_rows_positive in Hi. lia. }
  destruct (ladder_code_bucket _ Hpos) as [Hk10 Hin].
  split; [done|]. unfold label_of. rewrite Hl.
  rewrite ladder_label_all_labels by done.
  destruct (lookup_lt_is_Some_2 all_labels (ladder_code (total_casualties r)))
    as [lab Hlab]; [by change (length all_labels) with 10|].
  rewrite Hlab. simpl. split; [done|]. split; [|by vm_compute].
  intros Hbig. unfold in_ladder_bucket in Hin.
  set (c := ladder_code (total_casualties r)) in *.
  assert (c = 9) as Hc9.
  { do 9 (destruct c as [|c]; [simpl in Hin; lia|]). lia. }
  rewrite Hc9 in Hlab. by injection Hlab as <-.
Qed.

(** X6, witness: the row of Iraq, of 2 casualties, is labelled "2–5". *)
Lemma X6_witness :
  let r := incident 1 2020 3 14 "Iraq" "Asia" 2 in
  let cr := {| codes := [Some 1; Some 0]; categories := ["1"; "2–5"] |} in
  in_ladder_bucket 1 (total_casualties r) ∧
  ladder_label 1 = Some (label_of cr 1) ∧
  ((1000 < total_casualties r)%Z → label_of cr 1 = "1000+") ∧
  ladder_label <$> seq 0 10 = Some <$> all_labels.
Proof.
  intros r cr.
  apply (X6_label_names_the_range tied cr 0 r 1); by vm_compute.
Defined.

(* ===================================================================== *)
(** * Sums over groups *)
(* ===================================================================== *)

Lemma sum_of_fmap {A B} (g : A → B) (f : B → Z) (l : list A) :
  sum_of f (g <$> l) = sum_of (λ x, f (g x)) l.
Proof. induction l as [|x l IH]; [done|]. cbn. by rewrite IH. Qed.

Lemma sum_of_ext_in {A} (f g : A → Z) (l : list A) :
  (∀ x, x ∈ l → f x = g x) → sum_of f l = sum_of g l.
Proof.
  induction l as [|x l IH]; intros Hfg; [done|]. cbn.
  rewrite (Hfg x) by left. rewrite IH; [done|]. intros; apply Hfg. by right.
Qed.

Lemma sum_of_divide {A} (d : Z) (f g : A → Z) (l : list A) :
  (∀ x, x ∈ l → (d | f x - g x)%Z) → (d | sum_of f l - sum_of g l)%Z.
Proof.
  induction l as [|x l IH]; intros Hfg; cbn; [by exists 0%Z|].
  destruct (Hfg x ltac:(left)) as [k Hk].
  destruct IH as [k' Hk']; [intros; apply Hfg; by right|].
  exists (k + k')%Z. lia.
Qed.

(** The sum over some of the rows is bounded by the sum of the absolute
    values over all rows. *)
Lemma sum_of_abs_filter {A} (f : A → Z) (P : A → Prop) `{∀ x, Decision (P x)}
    (l : list A) :
  (Z.abs (sum_of f (filter P l)) ≤ sum_of (λ x, Z.abs (f x)) l)%Z.
Proof.
  induction l as [|x l IH]; [done|]. rewrite filter_cons.
  destruct (decide (P x)); cbn; lia.
Qed.

Section group_sums.
Context {A K : Type} `{EqDecision K}.
Implicit Types (key : A → option K) (rows : list A) (ks : list K).

Lemma sum_of_indicator_notin ks (o : option K) (v : Z) :
  (∀ k, o = Some k → k ∉ ks) →
  sum_of (λ k, if decide (o = Some k) then v else 0%Z) ks = 0%Z.
Proof.
  induction ks as [|k ks IH]; [done|]. intros Hno. cbn.
  rewrite decide_False by (intros ->; eapply Hno; [done|left]).
  rewrite IH; [done|]. intros k' -> ?. eapply Hno; [done|by right].
Qed.

Lemma sum_of_indicator ks k (v : Z) :
  NoDup ks → k ∈ ks →
  sum_of (λ k', if decide (Some k = Some k') then v else 0%Z) ks = v.
Proof.
  induction 1 as [|k' ks Hnotin Hnd IH]; [by intros ?%elem_of_nil|].
  intros Hin. cbn.
  destruct (decide (Some k = Some k')) as [[= ->]|Hne].
  - rewrite sum_of_indicator_notin; [lia|]. by intros ? [= <-].
  - apply elem_of_cons in Hin as [->|Hin]; [done|]. by rewrite IH.
Qed.

(** The sums of a column over the groups add up to its sum over the rows
    that have a key. *)
Lemma sum_of_groups (f : A → Z) key rows ks :
  NoDup ks → (∀ r k, r ∈ rows → key r = Some k → k ∈ ks) →
  sum_of (λ k, sum_of f (filter (λ r, key r = Some k) rows)) ks
  = sum_of f (filter (λ r, is_Some (key r)) rows).
Proof.
  intros Hnd. induction rows as [|r rows IH]; intros Hks.
  - clear. induction ks as [|k ks IH]; [done|]. cbn in *. by rewrite IH.
  - assert (sum_of (λ k, sum_of f (filter (λ r0, key r0 = Some k) (r :: rows))) ks
            = (sum_of (λ k, if decide (key r = Some k) then f r else 0%Z) ks
               + sum_of (λ k, sum_of f (filter (λ r0, key r0 = Some k) rows)) ks)%Z)
      as ->.
    { clear. induction ks as [|k ks IH]; [done|].
      cbn [sum_of]. rewrite IH. rewrite filter_cons.
      destruct (decide (key r = Some k)); cbn [sum_of]; lia. }
    rewrite IH by (intros; eapply Hks; [by right|done]).
    rewrite filter_cons. destruct (key r) as [k|] eqn:Hk.
    + rewrite sum_of_indicator; [|done|eapply Hks; [left|done]].
      by rewrite decide_True by done.
    + rewrite sum_of_indicator_notin by (by intros ? [=]).
      by rewrite decide_False by (by intros [? ?]).
Qed.

(** The int64 sums of a column over the groups, added up, hold its sum
    over the rows that have a key; they add up to it when the absolute
    values of the column add up to at most the largest int64. *)
Lemma series_sum_groups (f : A → Z) key rows ks :
  NoDup ks → (∀ r k, r ∈ rows → key r = Some k → k ∈ ks) →
  (18446744073709551616 |
     sum_of (λ k, Pd.series_sum (f <$> filter (λ r, key r = Some k) rows)) ks
     - sum_of f (filter (λ r, is_Some (key r)) rows))%Z ∧
  ((sum_of (λ r, Z.abs (f r)) rows ≤ int64_max)%Z →
   sum_of (λ k, Pd.series_sum (f <$> filter (λ r, key r = Some k) rows)) ks
   = sum_of f (filter (λ r, is_Some (key r)) rows)).
Proof.
  intros Hnd Hks. rewrite <- (sum_of_groups f key rows ks Hnd Hks). split.
  - apply sum_of_divide. intros k _. apply series_sum_int64_of.
  - intros Hbound. apply sum_of_ext_in. intros k _.
    apply int64_of_exact; [apply series_sum_int64_of|].
    pose proof (sum_of_abs_filter f (λ r, key r = Some k) rows).
    unfold int64_min, int64_max in *. lia.
Qed.

(** The counts of the cells of a column over the groups add up to its
    count over the rows that have a key. *)
Lemma sum_group_counts {B} (col : A → option B) key rows ks :
  NoDup ks → (∀ r k, r ∈ rows → key r = Some k → k ∈ ks) →
  sum_list ((λ k, Pd.count_notna col (filter (λ r, key r = Some k) rows)) <$> ks)
  = Pd.count_notna col (filter (λ r, is_Some (key r)) rows).
Proof.
  intros Hnd Hks. unfold Pd.count_notna.
  assert (∀ (P : A → Prop) (HP : ∀ x, Decision (P x)),
            filter (λ r, is_Some (col r)) (filter P rows)
            = filter P (filter (λ r, is_Some (col r)) rows)) as Hcomm.
  { intros P HP. rewrite !list_filter_filter. apply list_filter_iff. tauto. }
  rewrite Hcomm.
  rewrite <- (sum_group_sizes key (filter (λ r, is_Some (col r)) rows) ks Hnd).
  - clear Hnd Hks. induction ks as [|k ks IH]; [done|]. cbn.
    rewrite Hcomm. f_equal. apply IH.
  - intros r k [_ Hr]%list_elem_of_filter. by apply Hks.
Qed.
End group_sums.

Lemma filter_all {A} (P : A → Prop) `{∀ x, Decision (P x)} (l : list A) :
  (∀ x, x ∈ l → P x) → filter P l = l.
Proof.
  induction l as [|x l IH]; intros HP; [done|].
  rewrite filter_cons_True by (apply HP; left).
  f_equal. apply IH. intros; apply HP. by right.
Qed.

(* ===================================================================== *)
(** * The monthly trend, the actors and the years *)
(* ===================================================================== *)

Lemma trend_sums (dff : list Incident) :
  sum_of t_total_casualties (trend dff) =
  sum_of (λ k, Pd.series_sum
                 (total_casualties <$>
                    filter (λ r, Some (Pd.to_period_M (date r)) = Some k) dff))
    (Pd.group_keys period_le (omap (λ r, Some (Pd.to_period_M (date r))) dff)).
Proof. unfold trend, Pd.groupby. by rewrite !sum_of_fmap. Qed.

(** X7.  Nothing is lost or counted twice in the monthly trend.  The
    incident counts of its rows add up to the rows that carry an incident
    id.  The casualties of its rows add up to the casualties of the
    filtered table when the absolute values of the casualties add up to at
    most the largest int64, and in every case up to a multiple of 2^64. *)
Theorem X7_trend_conserves (dff : list Incident) :
  sum_list (t_Incident_ID <$> trend dff)
    = length (filter (λ r, is_Some (Incident_ID r)) dff) ∧
  (18446744073709551616 |
     sum_of t_total_casualties (trend dff) - sum_of total_casualties dff)%Z ∧
  ((sum_of (λ r, Z.abs (total_casualties r)) dff ≤ int64_max)%Z →
   sum_of t_total_casualties (trend dff) = sum_of total_casualties dff).
Proof.
  split.
  { unfold trend, Pd.groupby. rewrite <- !list_fmap_compose.
    etrans; [apply (sum_group_counts Incident_ID
                      (λ r, Some (Pd.to_period_M (date r))) dff)|].
    + apply group_keys_NoDup.
    + intros r k Hr Hk. apply elem_of_group_keys, list_elem_of_omap. eauto.
    + by rewrite filter_all by eauto. }
  rewrite trend_sums.
  destruct (series_sum_groups total_casualties
              (λ r, Some (Pd.to_period_M (date r))) dff
              (Pd.group_keys period_le (omap (λ r, Some (Pd.to_period_M (date r))) dff)))
    as [Hdiv Hexact].
  { apply group_keys_NoDup. }
  { intros r k Hr Hk. apply elem_of_group_keys, list_elem_of_omap. eauto. }
  rewrite (filter_all (λ r, is_Some _)) in Hdiv, Hexact by eauto. done.
Qed.

(** X7, witness: the casualties of the two-row table, 2 and 1. *)
Lemma X7_witness :
  sum_of t_total_casualties (trend tied) = sum_of total_casualties tied.
Proof.
  apply (proj2 (proj2 (X7_trend_conserves tied))). by vm_compute.
Defined.

#[global] Instance lex_le_total {A B} `{EqDecision A} (leA : relation A) (leB : relation B)
  `{!Total leA, !Total leB} : Total (lex_le leA leB).
Proof.
  intros p q. unfold lex_le.
  destruct (decide (p.1 = q.1)) as [Heq|Hne].
  - destruct (total leB p.2 q.2); [left|right]; right; done.
  - destruct (total leA p.1 q.1); [left|right]; left; split; done.
Qed.

#[global] Instance lex_le_trans {A B} (leA : relation A) (leB : relation B)
  `{!Transitive leA, !AntiSymm (=) leA, !Transitive leB} : Transitive (lex_le leA leB).
Proof.
  intros p q r. unfold lex_le. intros [[Hne1 H1]|[He1 H1]] [[Hne2 H2]|[He2 H2]].
  - left. split; [|by etrans]. intros Heq. rewrite <- Heq in H2.
    apply Hne1. by apply (anti_symm leA).
  - left. by rewrite <- He2.
  - left. by rewrite He1.
  - right. split; [congruence|by etrans].
Qed.

Lemma actor_sums (dff : list Incident) :
  sum_of (λ a : string * Z * nat, a.1.2) (actor dff) =
  sum_of (λ k, Pd.series_sum
                 (Total_affected <$> filter (λ r, Some (Actor_type r) = Some k) dff))
    (Pd.group_keys str_le (omap (λ r, Some (Actor_type r)) dff)).
Proof. unfold actor, Pd.groupby. by rewrite !sum_of_fmap. Qed.

(** X8.  The actor profile has one row per actor type of the filtered
    table, in ascending order of the type.  Its count is the rows of that
    type that carry an incident id, and its sum is the int64 that holds
    the people affected over the rows of that type: their sum when it is
    within the range of int64.  Summed over the actors the counts give the
    counted incidents of the whole filtered table, and the sums give its
    people affected when the absolute values of the column add up to at
    most the largest int64. *)
Theorem X8_actor_profile (dff : list Incident) :
  StronglySorted str_lt ((λ a, a.1.1) <$> actor dff) ∧
  (∀ a s n, (a, s, n) ∈ actor dff →
     (∃ r, r ∈ dff ∧ Actor_type r = a) ∧
     int64_of (sum_of Total_affected (filter (λ r, Actor_type r = a) dff)) s ∧
     ((int64_min ≤ sum_of Total_affected (filter (λ r, Actor_type r = a) dff)
       ≤ int64_max)%Z →
      s = sum_of Total_affected (filter (λ r, Actor_type r = a) dff)) ∧
     n = length (filter (λ r, is_Some (Incident_ID r) ∧ Actor_type r = a) dff)) ∧
  (∀ r, r ∈ dff → ∃ s n, (Actor_type r, s, n) ∈ actor dff) ∧
  sum_list ((λ a, a.2) <$> actor dff)
    = length (filter (λ r, is_Some (Incident_ID r)) dff) ∧
  ((sum_of (λ r, Z.abs (Total_affected r)) dff ≤ int64_max)%Z →
   sum_of (λ a, a.1.2) (actor dff) = sum_of Total_affected dff).
Proof.
  assert (∀ k, filter (λ r, Some (Actor_type r) = Some k) dff
               = filter (λ r, Actor_type r = k) dff) as Hf.
  { intros k. apply list_filter_iff. intros r. split; [by intros [= ->]|by intros ->]. }
  split; [|split; [|split; [|split]]].
  - unfold actor. rewrite <- list_fmap_compose.
    change (StronglySorted str_lt
              (Pd.groupby str_le (λ r, Some (Actor_type r)) dff).*1).
    rewrite groupby_keys. apply (group_keys_strictly_sorted str_le).
  - intros a s n ([k g] & [= -> -> ->] & Hg)%list_elem_of_fmap. simpl.
    apply elem_of_groupby in Hg as [(r & Hr & [= Hk]) ->]. rewrite Hf.
    split; [eauto|].
    pose proof (series_sum_int64_of Total_affected
                  (filter (λ r, Actor_type r = k) dff)) as Hsum.
    split; [done|]. split; [by apply int64_of_exact|].
    unfold Pd.count_notna. by rewrite list_filter_filter.
  - intros r Hr. eexists _, _. unfold actor. apply list_elem_of_fmap.
    eexists (Actor_type r, _). split; [done|]. apply elem_of_groupby. eauto.
  - unfold actor, Pd.groupby. rewrite <- !list_fmap_compose.
    etrans; [apply (sum_group_counts Incident_ID (λ r, Some (Actor_type r)) dff)|].
    + apply group_keys_NoDup.
    + intros r k Hr Hk. apply elem_of_group_keys, list_elem_of_omap. eauto.
    + by rewrite filter_all by eauto.
  - intros Hbound. rewrite actor_sums.
    destruct (series_sum_groups Total_affected (λ r, Some (Actor_type r)) dff
                (Pd.group_keys str_le (omap (λ r, Some (Actor_type r)) dff)))
      as [_ Hexact].
    { apply group_keys_NoDup. }
    { intros r k Hr Hk. apply elem_of_group_keys, list_elem_of_omap. eauto. }
    rewrite (filter_all (λ r, is_Some _)) in Hexact by eauto. by apply Hexact.
Qed.

(** X8, witness: the two rows of the two-row table are of the actor type
    Unknown, with 2 and 1 people affected. *)
Lemma X8_witness :
  3%Z = sum_of Total_affected (filter (λ r, Actor_type r = "Unknown") tied) ∧
  sum_of (λ a : string * Z * nat, a.1.2) (actor tied) = sum_of Total_affected tied.
Proof.
  split.
  - destruct (proj1 (proj2 (X8_actor_profile tied)) "Unknown" 3%Z 2)
      as (_ & _ & Hsum & _).
    + by apply (bool_decide_unpack _); vm_compute.
    + apply Hsum. by split; vm_compute.
  - apply (proj2 (proj2 (proj2 (proj2 (X8_actor_profile tied))))). by vm_compute.
Defined.

(** X9.  The yearly count by region has a row for a year and a region
    exactly when the filtered table has a row of that year and region: a
    region without incident in a year is left out, not listed with zero.
    The rows come by year and then by region, each pair once; the count is
    the rows of the pair that carry an incident id, and the counts add up
    to the counted incidents of the filtered table. *)
Theorem X9_yearwise_omits_empty_pairs (dff : list Incident) :
  StronglySorted (λ a b, lex_le Z.le str_le a b ∧ a ≠ b) (fst <$> yearwise dff) ∧
  (∀ y reg, (∃ n, (y, reg, n) ∈ yearwise dff) ↔
            ∃ r, r ∈ dff ∧ year r = y ∧ Region r = reg) ∧
  (∀ y reg n, (y, reg, n) ∈ yearwise dff →
     n = Pd.count_notna Incident_ID (filter (λ r, year r = y ∧ Region r = reg) dff)) ∧
  sum_list (snd <$> yearwise dff) = Pd.count_notna Incident_ID dff.
Proof.
  assert (∀ y reg, filter (λ r, Some (year r, Region r) = Some (y, reg)) dff
                   = filter (λ r, year r = y ∧ Region r = reg) dff) as Hf.
  { intros y reg. apply list_filter_iff. intros r.
    split; [by intros [= -> ->]|by intros [-> ->]]. }
  split; [|split; [|split]].
  - unfold yearwise. rewrite <- list_fmap_compose.
    change (StronglySorted (λ a b, lex_le Z.le str_le a b ∧ a ≠ b)
              (Pd.groupby (lex_le Z.le str_le) (λ r, Some (year r, Region r)) dff).*1).
    rewrite groupby_keys. apply (group_keys_strictly_sorted (lex_le Z.le str_le)).
  - intros y reg. split.
    + intros (n & ([k g] & [= <- ->] & Hg)%list_elem_of_fmap).
      apply elem_of_groupby in Hg as [(r & Hr & [= Hy Hreg]) _]. eauto.
    + intros (r & Hr & <- & <-). eexists. unfold yearwise. apply list_elem_of_fmap.
      eexists (year r, Region r, _). split; [done|]. apply elem_of_groupby. eauto.
  - intros y reg n ([k g] & [= <- ->] & Hg)%list_elem_of_fmap.
    apply elem_of_groupby in Hg as [_ ->]. simpl. by rewrite Hf.
  - unfold yearwise, Pd.groupby. rewrite <- !list_fmap_compose.
    etrans; [apply (sum_group_counts Incident_ID (λ r, Some (year r, Region r)) dff)|].
    + apply group_keys_NoDup.
    + intros r k Hr Hk. apply elem_of_group_keys, list_elem_of_omap. eauto.
    + by rewrite filter_all by eauto.
Qed.

(** X9, witness: the two-row table has no row for Asia in 2021 and one for
    Asia in 2020. *)
Lemma X9_witness :
  Pd.count_notna Incident_ID (filter (λ r, year r = 2020%Z ∧ Region r = "Asia") tied) = 1.
Proof.
  symmetry. apply (proj1 (proj2 (proj2 (X9_yearwise_omits_empty_pairs tied)))).
  by apply (bool_decide_unpack _); vm_compute.
Defined.

(* ===================================================================== *)
(** * The attack taxonomy *)
(* ===================================================================== *)

Lemma tree_key_Some (r : Incident) m c :
  (m' ← Means_of_attack r; c' ← Attack_context r; Some (m', c')) = Some (m, c)
  ↔ Means_of_attack r = Some m ∧ Attack_context r = Some c.
Proof.
  destruct (Means_of_attack r), (Attack_context r); simpl;
    split; try done; try (by intros [? ?]).
  - by intros [= -> ->].
  - by intros [[= ->] [= ->]].
Qed.

(** X10.  A row that lacks the means of attack or the attack context is in
    no group of the attack taxonomy, and adding such rows to the table
    changes nothing in it.  The count of a pair is the number of filtered
    rows with that means and that context, never zero, and the pairs come
    in ascending order, each once. *)
Theorem X10_taxonomy_skips_missing (dff : list Incident) :
  StronglySorted (λ a b, lex_le str_le str_le a b ∧ a ≠ b) (fst <$> tree_grouped dff) ∧
  (∀ m c n, (m, c, n) ∈ tree_grouped dff →
     n = length (filter (λ r, Means_of_attack r = Some m ∧ Attack_context r = Some c) dff)
     ∧ 0 < n) ∧
  (∀ r m c, r ∈ dff → Means_of_attack r = Some m → Attack_context r = Some c →
     ∃ n, (m, c, n) ∈ tree_grouped dff) ∧
  (∀ extra,
     (∀ r, r ∈ extra → Means_of_attack r = None ∨ Attack_context r = None) →
     tree_grouped (dff ++ extra) = tree_grouped dff).
Proof.
  assert (∀ r, r ∈ treedata dff ↔
               (is_Some (Means_of_attack r) ∧ is_Some (Attack_context r)) ∧ r ∈ dff)
    as Htd.
  { intros r. unfold treedata.
    apply (list_elem_of_filter
             (λ r, is_Some (Means_of_attack r) ∧ is_Some (Attack_context r))). }
  assert (∀ m c,
    filter (λ r, (m' ← Means_of_attack r; c' ← Attack_context r; Some (m', c'))
                 = Some (m, c)) (treedata dff)
    = filter (λ r, Means_of_attack r = Some m ∧ Attack_context r = Some c) dff) as Hf.
  { intros m c. unfold treedata. rewrite list_filter_filter.
    apply list_filter_iff. intros r. rewrite tree_key_Some.
    split; [tauto|]. intros [Hm Hc]. rewrite Hm, Hc. eauto. }
  split; [|split; [|split]].
  - unfold tree_grouped, Pd.size. rewrite <- list_fmap_compose.
    change (StronglySorted (λ a b, lex_le str_le str_le a b ∧ a ≠ b)
      (Pd.groupby (lex_le str_le str_le)
         (λ r, m ← Means_of_attack r; c ← Attack_context r; Some (m, c))
         (treedata dff)).*1).
    rewrite groupby_keys. apply (group_keys_strictly_sorted (lex_le str_le str_le)).
  - intros m c n ([k g] & [= <- ->] & Hg)%list_elem_of_fmap.
    apply elem_of_groupby in Hg as [(r & Hr & Hk) ->]. simpl. rewrite Hf.
    split; [done|]. apply tree_key_Some in Hk.
    assert (r ∈ filter (λ r, Means_of_attack r = Some m ∧ Attack_context r = Some c) dff)
      as Hin by (apply list_elem_of_filter; split; [done|by apply Htd in Hr as [_ ?]]).
    destruct (filter _ dff); [by apply elem_of_nil in Hin|simpl; lia].
  - intros r m c Hr Hm Hc. eexists. unfold tree_grouped, Pd.size.
    apply list_elem_of_fmap. eexists (m, c, _). split; [done|].
    apply elem_of_groupby. split; [|done]. exists r. split.
    + apply Htd. rewrite Hm, Hc. eauto.
    + by apply tree_key_Some.
  - intros extra Hextra. unfold tree_grouped. f_equal. f_equal.
    unfold treedata. rewrite filter_app.
    rewrite (filter_none _ extra); [by rewrite app_nil_r|].
    apply Forall_forall. intros r Hr [[? Hm] [? Hc]].
    destruct (Hextra r Hr); congruence.
Qed.

(** X10, witness: the pair of the two-row table, counted twice. *)
Lemma X10_witness :
  2 = length (filter (λ r, Means_of_attack r = Some "Shooting" ∧
                           Attack_context r = Some "Ambush") tied) ∧ 0 < 2.
Proof.
  apply (proj1 (proj2 (X10_taxonomy_skips_missing tied)) "Shooting" "Ambush" 2).
  by apply (bool_decide_unpack _); vm_compute.
Defined.

(* ===================================================================== *)
(** * The geographic count and the insight *)
(* ===================================================================== *)

Lemma heatdata_keys dff :
  (heatdata dff).*1 = Pd.group_keys str_le (Country <$> dff).
Proof.
  unfold heatdata, Pd.size. rewrite <- list_fmap_compose.
  change ((Pd.groupby str_le (λ r, Some (Country r)) dff).*1
          = Pd.group_keys str_le (Country <$> dff)).
  by rewrite groupby_keys.
Qed.

Lemma heatdata_elem dff r :
  r ∈ dff → (Country r, length (filter (λ r', Country r' = Country r) dff)) ∈ heatdata dff.
Proof.
  intros Hr. unfold heatdata, Pd.size. apply list_elem_of_fmap.
  eexists (Country r, _). split; [|apply elem_of_groupby; split; [eauto|done]].
  simpl. f_equal. f_equal. apply list_filter_iff.
  intros r'. split; [by intros ->|by intros [= ->]].
Qed.

(** X11.  The geographic count lists the countries of the filtered table in
    ascending order, each once.  So with a sort that keeps equal counts in
    input order, the insight is, among the countries of maximal count, the
    first in that order. *)
Theorem X11_ties_go_to_the_first_country (dff : list Incident) :
  StronglySorted str_lt (heatdata dff).*1 ∧
  (∀ observed c,
     @top_country (runtime observed false) (heatdata dff) = Ok c →
     ∀ c' n', (c', n') ∈ heatdata dff → (∀ p, p ∈ heatdata dff → p.2 ≤ n') →
              c' ≠ c → str_lt c c').
Proof.
  assert (StronglySorted str_lt (heatdata dff).*1) as Hs.
  { rewrite heatdata_keys. apply (group_keys_strictly_sorted str_le). }
  split; [done|]. intros observed c. unfold top_country. simpl.
  destruct (isort_desc false (heatdata dff)) as [|y s] eqn:Hsort; [done|].
  simpl. intros [= <-] c' n' Hin Hmax Hne.
  destruct (isort_desc_stable_head _ y s Hsort) as (i & Hi & Hymax & Hbefore).
  apply list_elem_of_lookup in Hin as [j Hj].
  assert (n' = y.2) as ->.
  { pose proof (Hmax y (list_elem_of_lookup_2 _ _ _ Hi)).
    pose proof (Hymax (c', n') (list_elem_of_lookup_2 _ _ _ Hj)). simpl in *. lia. }
  destruct (Nat.lt_trichotomy i j) as [Hlt|[->|Hgt]].
  - eapply (StronglySorted_lookup str_lt _ i j); [done| | |done].
    + by rewrite list_lookup_fmap, Hi.
    + by rewrite list_lookup_fmap, Hj.
  - rewrite Hi in Hj. injection Hj as Hy.
    apply (f_equal fst) in Hy. simpl in Hy. congruence.
  - specialize (Hbefore j (c', y.2) Hgt Hj). simpl in Hbefore. lia.
Qed.

(** X11, witness: in the two-row table Iraq and Mali tie, and Iraq is the
    insight of a stable sort. *)
Lemma X11_witness : str_lt "Iraq" "Mali".
Proof.
  apply (proj2 (X11_ties_go_to_the_first_country tied) false "Iraq" eq_refl "Mali" 1).
  - by apply (bool_decide_unpack _); vm_compute.
  - apply Forall_forall. by apply (bool_decide_unpack _); vm_compute.
  - done.
Defined.

(** X12.  When the callback returns, the insight names a country of the
    filtered table, and no country has more rows in the filtered table than
    the one it names. *)
Theorem X12_insight_names_a_top_country `{PandasRuntime}
    (T : list Incident) (R : option string) (V : Views) :
  compute_views T R = Ok V →
  ∃ c, v_narration V = narration c ∧
       (∃ r, r ∈ region_filter T R ∧ Country r = c) ∧
       ∀ c', length (filter (λ r, Country r = c') (region_filter T R))
             ≤ length (filter (λ r, Country r = c) (region_filter T R)).
Proof.
  unfold compute_views, views_of. generalize (region_filter T R) as dff. intros dff.
  destruct (casualty_binner _) as [cr|]; [|done]. rewrite result_bind_Ok.
  destruct (sb_grouped _) as [sbg|]; [|done]. rewrite result_bind_Ok. cbv zeta.
  destruct (top_country (heatdata dff)) as [top|] eqn:Htop; [|done].
  rewrite result_bind_Ok. intros [= <-]. simpl. exists top. split; [done|].
  assert (heatdata dff ≠ []) as Hne.
  { intros Hnil. by rewrite Hnil, top_country_nil in Htop. }
  destruct (top_country_some_max _ Hne) as (c & Hc & n & Hin & Hmax).
  assert (c = top) as -> by congruence.
  destruct (heatdata_count _ _ _ Hin) as [-> Hpos]. split.
  - destruct (filter (λ r, Country r = top) dff) as [|r l] eqn:Hf; [simpl in Hpos; lia|].
    assert (r ∈ filter (λ r, Country r = top) dff) as Hr by (rewrite Hf; left).
    apply list_elem_of_filter in Hr as [? ?]. eauto.
  - intros c'.
    destruct (filter (λ r, Country r = c') dff) as [|r l] eqn:Hf; [simpl; lia|].
    assert (r ∈ filter (λ r, Country r = c') dff) as Hr by (rewrite Hf; left).
    apply list_elem_of_filter in Hr as [<- Hr]. rewrite <- Hf.
    apply (Hmax (_, _) (heatdata_elem dff r Hr)).
Qed.

(** X12, witness: the single row of Italy. *)
Lemma X12_witness :
  ∃ c, narration "Italy" = narration c ∧
       (∃ r, r ∈ region_filter scenario1 None ∧ Country r = c) ∧
       ∀ c', length (filter (λ r, Country r = c') (region_filter scenario1 None))
             ≤ length (filter (λ r, Country r = c) (region_filter scenario1 None)).
Proof.
  apply (@X12_insight_names_a_top_country (runtime true false) scenario1 None
           {| v_sb_grouped := [("2–5", "X", 1)];
              v_tree_grouped := [("Shooting", "Ambush", 1)];
              v_heatdata := [("Italy", 1)];
              v_trend := [{| t_date := {| d_year := 2020; d_month := 3; d_day := 1 |};
                             t_Incident_ID := 1; t_total_casualties := 3 |}];
              v_yearwise := [(2020%Z, "X", 1)];
              v_actor := [("Unknown", 3%Z, 1)];
              v_narration := narration "Italy" |}).
  by vm_compute.
Defined.

(* ===================================================================== *)
(** * The casualty distribution *)
(* ===================================================================== *)

Lemma zip_fmap_self {A B} (f : A → B) (l : list A) :
  zip l (f <$> l) = (λ x, (x, f x)) <$> l.
Proof. induction l as [|x l IH]; [done|]. simpl. by f_equal. Qed.

Lemma total_count_app {K} (g1 g2 : list (K * nat)) :
  total_count (g1 ++ g2) = total_count g1 + total_count g2.
Proof. unfold total_count. by rewrite fmap_app, sum_list_with_app. Qed.

Lemma sum_list_with_ext_in {A} (f g : A → nat) (l : list A) :
  (∀ x, x ∈ l → f x = g x) → sum_list_with f l = sum_list_with g l.
Proof.
  induction l as [|x l IH]; intros Hfg; [done|]. simpl.
  rewrite (Hfg x) by left. rewrite IH; [done|]. intros; apply Hfg. by right.
Qed.

Lemma sum_list_fmap {A} (f : A → nat) (l : list A) :
  sum_list (f <$> l) = sum_list_with f l.
Proof. induction l as [|x l IH]; [done|]. cbn. f_equal. apply IH. Qed.

(** The rows of positive casualties with the column of the binner. *)
Lemma casualty_binner_labelled (dff : list Incident) cr :
  casualty_binner (sb_data_rows dff) = Ok cr →
  zip (sb_data_rows dff) (codes cr)
    = (λ r, (r, Some (ladder_code (total_casualties r)))) <$> sb_data_rows dff ∧
  (∀ r, r ∈ sb_data_rows dff →
     ladder_code (total_casualties r) < length (categories cr)) ∧
  (∀ k, k < length (categories cr) → all_labels !! k = Some (label_of cr k)).
Proof.
  intros Hcr.
  assert (codes cr = (λ r, Some (ladder_code (total_casualties r))) <$> sb_data_rows dff)
    as Hcodes.
  { apply list_eq. intros i. rewrite list_lookup_fmap.
    destruct (sb_data_rows dff !! i) as [r|] eqn:Hi.
    - by destruct (casualty_binner_codes _ _ _ _ Hcr Hi) as (-> & _).
    - simpl. apply lookup_ge_None. apply lookup_ge_None in Hi.
      destruct (decide (sb_data_rows dff = [])) as [Hnil|Hne].
      { by rewrite Hnil, casualty_binner_empty in Hcr. }
      destruct (casualty_binner_Ok_inv _ _ Hcr) as [_ Hbound].
      destruct (casualty_binner_ok _ Hne) as (m & _ & _ & _ & Hcut); [|done|].
      { intros r. rewrite sb_data_rows_positive. tauto. }
      rewrite Hcut in Hcr. injection Hcr as <-. simpl. by rewrite !length_fmap. }
  split; [by rewrite Hcodes, zip_fmap_self|]. split.
  - intros r [i Hi]%list_elem_of_lookup.
    by destruct (casualty_binner_codes _ _ _ _ Hcr Hi) as (_ & _ & ?).
  - intros k Hk.
    destruct (decide (sb_data_rows dff = [])) as [Hnil|Hne].
    { by rewrite Hnil, casualty_binner_empty in Hcr. }
    destruct (casualty_binner_Ok_inv _ _ Hcr) as [_ Hbound].
    destruct (casualty_binner_ok _ Hne) as (m & _ & Hm1 & Hm2 & Hcut); [|done|].
    { intros r. rewrite sb_data_rows_positive. tauto. }
    rewrite Hcut in Hcr. injection Hcr as <-. unfold label_of. simpl in *.
    destruct (casualty_bins_spec m Hm1 Hm2)
      as (rest & e & Hb & _ & _ & _ & _ & Hlen).
    destruct (casualty_labels_spec (casualty_bins (Some m))) as (Hlab & Hll & _).
    { rewrite Hb in *. simpl in *. lia. }
    rewrite Hlab in *. rewrite lookup_take_lt by (rewrite length_take in Hk; lia).
    destruct (lookup_lt_is_Some_2 all_labels k) as [lab ->]; [|done].
    rewrite length_take in Hk. lia.
Qed.

Section distribution.
Context `{PandasRuntime}.

(** X13.  When the callback returns, the counts of the casualty
    distribution add up to the number of filtered rows of positive
    casualties; the count of a label and a region is the number of those
    rows in that region whose bucket on the full ladder has that label; and
    with [observed=True] no group has count zero. *)
Theorem X13_casualty_distribution_counts
    (T : list Incident) (R : option string) (V : Views) :
  compute_views T R = Ok V →
  total_count (v_sb_grouped V) = length (sb_data_rows (region_filter T R)) ∧
  (∀ lab reg n, (lab, reg, n) ∈ v_sb_grouped V →
     ∃ k, all_labels !! k = Some lab ∧
          n = length (filter (λ r, ladder_code (total_casualties r) = k ∧ Region r = reg)
                        (sb_data_rows (region_filter T R)))) ∧
  (groupby_observed = true →
   ∀ lab reg n, (lab, reg, n) ∈ v_sb_grouped V → 0 < n).
Proof.
  unfold compute_views, views_of. generalize (region_filter T R) as dff. intros dff.
  destruct (casualty_binner _) as [cr|] eqn:Hcr; [|done]. rewrite result_bind_Ok.
  unfold sb_grouped. simpl df_casualty_range. cbv iota. rewrite result_bind_Ok.
  cbv zeta. destruct (top_country _) as [top|]; [|done]. rewrite result_bind_Ok.
  intros [= <-]. simpl.
  destruct (casualty_binner_labelled dff cr Hcr) as (Hzip & Hlt & Hlab).
  rewrite Hzip. set (sb := sb_data_rows dff) in *.
  set (g := λ r : Incident, (r, Some (ladder_code (total_casualties r)))).
  assert (∀ k reg,
    length (filter (λ rc : Incident * option nat, rc.2 = Some k ∧ Region rc.1 = reg)
              (g <$> sb))
    = length (filter (λ r, ladder_code (total_casualties r) = k ∧ Region r = reg) sb))
    as Hcount.
  { intros k reg. rewrite filter_fmap_comm, length_fmap. f_equal.
    apply list_filter_iff. intros r. simpl. split.
    - by intros [[= ->] ->].
    - by intros [-> ->]. }
  assert (∀ k reg,
    filter (λ rc : Incident * option nat,
              ((λ k', (k', Region rc.1)) <$> rc.2) = Some (k, reg)) (g <$> sb)
    = filter (λ rc : Incident * option nat, rc.2 = Some k ∧ Region rc.1 = reg)
        (g <$> sb)) as Hkey.
  { intros k reg. apply list_filter_iff. intros [r [k'|]]; simpl; split; try done.
    - by intros [= -> ->].
    - by intros [[= ->] ->].
    - by intros [? _]. }
  destruct groupby_observed.
  - (* observed *)
    split; [|split].
    + unfold total_count, Pd.groupby. rewrite <- !list_fmap_compose.
      rewrite sum_list_fmap.
      etrans; [apply (sum_group_sizes
        (λ rc : Incident * option nat, (λ k, (k, Region rc.1)) <$> rc.2) (g <$> sb))|].
      * apply group_keys_NoDup.
      * intros rc k Hrc Hk. apply elem_of_group_keys, list_elem_of_omap. eauto.
      * rewrite filter_all, length_fmap; [done|].
        intros rc (r & -> & _)%list_elem_of_fmap. simpl. eauto.
    + intros lab reg n ([[k reg'] grp] & [= -> -> ->] & Hg)%list_elem_of_fmap.
      apply elem_of_groupby in Hg as [(rc & Hrc & Hk) ->]. simpl.
      exists k. rewrite Hkey, Hcount. split; [|done]. apply Hlab.
      apply list_elem_of_fmap in Hrc as (r & -> & Hr). simpl in Hk.
      injection Hk as <- _. by apply Hlt.
    + intros _ lab reg n ([[k reg'] grp] & [= -> -> ->] & Hg)%list_elem_of_fmap.
      apply elem_of_groupby in Hg as [(rc & Hrc & Hk) ->]. simpl.
      assert (rc ∈ filter (λ rc : Incident * option nat,
                  ((λ k', (k', Region rc.1)) <$> rc.2) = Some (k, reg')) (g <$> sb))
        as Hin by by apply list_elem_of_filter.
      destruct (filter _ (g <$> sb)); [by apply elem_of_nil in Hin|simpl; lia].
  - (* not observed *)
    split; [|split; [|done]].
    + assert (∀ (ks1 : list nat) (ks2 : list string) (lab : nat → string)
                (c : nat → string → nat),
        total_count (k ← ks1; reg ← ks2; [(lab k, reg, c k reg)])
        = sum_list_with (λ k, sum_list_with (λ reg, c k reg) ks2) ks1) as Hsum.
      { intros ks1 ks2 lab c. induction ks1 as [|k ks1 IH]; [done|].
        rewrite bind_cons, total_count_app, IH. simpl. f_equal.
        clear. induction ks2 as [|reg ks2 IH]; [done|].
        rewrite bind_cons, total_count_app, IH. unfold total_count. simpl. lia. }
      rewrite Hsum.
      rewrite (sum_list_with_ext_in _
        (λ k, length (filter (λ rc : Incident * option nat, rc.2 = Some k) (g <$> sb)))).
      * rewrite (sum_group_sizes (λ rc : Incident * option nat, rc.2) (g <$> sb)).
        -- rewrite filter_all, length_fmap; [done|].
           intros rc (r & -> & _)%list_elem_of_fmap. simpl. eauto.
        -- apply NoDup_seq.
        -- intros rc k (r & -> & Hr)%list_elem_of_fmap [= <-].
           apply elem_of_seq. split; [lia|]. simpl. by apply Hlt.
      * intros k _.
        etrans; [|etrans;
          [apply (sum_group_sizes (λ rc : Incident * option nat, Some (Region rc.1))
             (filter (λ rc : Incident * option nat, rc.2 = Some k) (g <$> sb))
             (Pd.group_keys str_le (Region <$> sb)))|]].
        -- apply sum_list_with_ext_in. intros reg _.
           f_equal. rewrite list_filter_filter. apply list_filter_iff.
           intros rc. split; [by intros [-> ->]|]. by intros [[= ->] ->].
        -- apply group_keys_NoDup.
        -- intros rc reg [_ (r & -> & Hr)%list_elem_of_fmap]%list_elem_of_filter [= <-].
           apply elem_of_group_keys. simpl. by apply list_elem_of_fmap_2.
        -- by rewrite filter_all by eauto.
    + intros lab reg n (k & (reg' & Hin & Hreg)%list_elem_of_bind & Hk)%list_elem_of_bind.
      apply list_elem_of_singleton in Hin as [= -> -> ->].
      exists k. rewrite Hcount. split; [|done]. apply Hlab.
      apply elem_of_seq in Hk. lia.
Qed.
End distribution.

(** X13, witness: the single row of Italy, of 3 casualties, with
    [observed=True]. *)
Lemma X13_witness :
  total_count [("2–5", "X", 1)] = length (sb_data_rows (region_filter scenario1 None)) ∧
  (∀ lab reg n, (lab, reg, n) ∈ [("2–5", "X", 1)] →
     ∃ k, all_labels !! k = Some lab ∧
          n = length (filter (λ r, ladder_code (total_casualties r) = k ∧ Region r = reg)
                        (sb_data_rows (region_filter scenario1 None)))) ∧
  (@groupby_observed (runtime true false) = true →
   ∀ lab reg n, (lab, reg, n) ∈ [("2–5", "X", 1)] → 0 < n).
Proof.
  apply (@X13_casualty_distribution_counts (runtime true false) scenario1 None
           {| v_sb_grouped := [("2–5", "X", 1)];
              v_tree_grouped := [("Shooting", "Ambush", 1)];
              v_heatdata := [("Italy", 1)];
              v_trend := [{| t_date := {| d_year := 2020; d_month := 3; d_day := 1 |};
                             t_Incident_ID := 1; t_total_casualties := 3 |}];
              v_yearwise := [(2020%Z, "X", 1)];
              v_actor := [("Unknown", 3%Z, 1)];
              v_narration := narration "Italy" |}).
  by vm_compute.
Defined.
